(** * extract_affinity.py: marker scanning and field extraction

    A shallow embedding of [modules/affinity-extractor/scripts/extract_affinity.py].
    Buffers are lists of bytes, Python [int]s are [Z], Python [str]s are
    lists of Unicode code points, Python [float]s are binary64 values of
    [SpecFloat], and statements that may raise live in a small error monad. *)

From Stdlib Require Import ZArith List Strings.Byte Strings.String Floats.SpecFloat.
From stdpp Require Import base decidable list list_numbers sorting gmap.
From Equations Require Import Equations.
From Equations.Prop Require Import Logic.

Open Scope Z_scope.

(** ** Python values *)

Module Py.

(** [bytes]: an immutable sequence of bytes. *)
Abbreviation bytes := (list byte).

(** [str]: a sequence of Unicode code points. *)
Abbreviation str := (list N).

#[global] Instance byte_eq_dec : EqDecision byte := Byte.byte_eq_dec.

(** A bytes literal with ASCII content. *)
Definition b (s : string) : bytes := list_byte_of_string s.

(** A str literal with ASCII content. *)
Definition u (s : string) : str := Byte.to_N <$> list_byte_of_string s.

Definition len {A} (l : list A) : Z := Z.of_nat (length l).

(** Index normalisation of a slice bound: negative bounds count from the
    end, and every bound is clipped to [0, len]. *)
Definition clip (n i : Z) : Z :=
  if i <? 0 then Z.max 0 (i + n) else Z.min i n.

(** [data[i:j]]. *)
Definition slice {A} (data : list A) (i j : Z) : list A :=
  let i' := clip (len data) i in
  let j' := clip (len data) j in
  take (Z.to_nat (j' - i')) (drop (Z.to_nat i') data).

(** The scan behind [bytes.find]: [l] is [data[i:]]. *)
Fixpoint find_in (sub l : bytes) (i : Z) : Z :=
  if bool_decide (sub `prefix_of` l) then i
  else match l with
       | [] => -1
       | _ :: l' => find_in sub l' (i + 1)
       end.

(** [data.find(sub, start)]: the lowest index at or after [start] where
    [sub] occurs, or [-1]. *)
Definition find (data sub : bytes) (start : Z) : Z :=
  let s := if start <? 0 then Z.max 0 (start + len data) else start in
  if len data <? s then -1 else find_in sub (drop (Z.to_nat s) data) s.


(** *** Exceptions *)

Inductive exn :=
  | StructError | ValueError | OverflowError | IndexError
  | JSONDecodeError | UnicodeDecodeError | OSError
  | SystemExit (code : Z).

(** A statement or expression either yields a value or raises. *)
Inductive result (A : Type) :=
  | Ok (a : A)
  | Raise (e : exn).
Arguments Ok {A} a.
Arguments Raise {A} e.

#[global] Instance result_ret : MRet result := @Ok.
#[global] Instance result_bind : MBind result := λ A B f m,
  match m with Ok a => f a | Raise e => Raise e end.

(** [try: body  except: pass] around a statement that updates [st]. *)
Definition try_except_pass {S} (st : S) (body : result S) : result S :=
  match body with Ok st' => Ok st' | Raise _ => Ok st end.

(** [for x in xs: body], threading the loop's variables through. *)
Fixpoint for_each {X S} (xs : list X) (body : X → S → result S) (st : S) : result S :=
  match xs with
  | [] => Ok st
  | x :: xs' => st' ← body x st; for_each xs' body st'
  end.

(** [data[i]] on bytes. *)
Definition getitem (data : bytes) (i : Z) : result byte :=
  let i' := if i <? 0 then i + len data else i in
  if (i' <? 0) || (len data <=? i') then Raise IndexError
  else match data !! Z.to_nat i' with
       | Some x => Ok x
       | None => Raise IndexError
       end.

(** *** Character classes *)

Definition ascii_isalnum (c : N) : bool :=
  ((48 <=? c) && (c <=? 57) || (65 <=? c) && (c <=? 90) || (97 <=? c) && (c <=? 122))%N.

(** [bytes.isalnum()]: non-empty and every byte an ASCII letter or digit. *)
Definition bytes_isalnum (bs : bytes) : bool :=
  match bs with
  | [] => false
  | _ => forallb (λ x, ascii_isalnum (Byte.to_N x)) bs
  end.

(** [str.isalnum()] on [chr(x)] for a byte [x]: ASCII letters and digits
    and the Latin-1 letters, superscript digits and vulgar fractions. *)
Definition chr_isalnum (x : byte) : bool :=
  let c := Byte.to_N x in
  (ascii_isalnum c
   || bool_decide (c ∈ [0xAA; 0xB2; 0xB3; 0xB5; 0xB9; 0xBA; 0xBC; 0xBD; 0xBE])
   || (0xC0 <=? c) && (c <=? 0xFF) && negb (c =? 0xD7) && negb (c =? 0xF7))%N.

(** [str.isspace()] on one code point. *)
Definition isspace (c : N) : bool :=
  ((9 <=? c) && (c <=? 13) || (28 <=? c) && (c <=? 32)
   || bool_decide (c ∈ [0x85; 0xA0; 0x1680; 0x2028; 0x2029; 0x202F; 0x205F; 0x3000])
   || (0x2000 <=? c) && (c <=? 0x200A))%N.

(** *** str methods *)

Fixpoint lstrip_while (f : N → bool) (s : str) : str :=
  match s with
  | c :: s' => if f c then lstrip_while f s' else s
  | [] => []
  end.

Definition rstrip_while (f : N → bool) (s : str) : str :=
  reverse (lstrip_while f (reverse s)).

(** [s.strip()]. *)
Definition strip (s : str) : str := rstrip_while isspace (lstrip_while isspace s).

(** [s.rstrip('\x00')]. *)
Definition rstrip_nul (s : str) : str := rstrip_while (N.eqb 0) s.

(** [sub in s] on str. *)
Fixpoint contains (sub s : str) : bool :=
  bool_decide (sub `prefix_of` s) ||
  match s with
  | [] => false
  | _ :: s' => contains sub s'
  end.

(** [s <= t] on str: lexicographic on code points. *)
Fixpoint str_leb (s t : str) : bool :=
  match s, t with
  | [], _ => true
  | _ :: _, [] => false
  | c :: s', d :: t' => (c <? d)%N || (c =? d)%N && str_leb s' t'
  end.

(** [bs.decode('ascii', errors='ignore')]: bytes above 127 are dropped. *)
Definition decode_ascii_ignore (bs : bytes) : str :=
  Byte.to_N <$> filter (λ x, (Byte.to_N x < 128)%N) bs.

(** *** sorted *)

Section Sorted.
Context {A : Type} (leb : A → A → bool).

Fixpoint sorted_insert (x : A) (l : list A) : list A :=
  match l with
  | [] => [x]
  | y :: l' => if leb x y then x :: l else y :: sorted_insert x l'
  end.

(** [sorted(l)] under the order [leb]: the stable sort, an element
    stays ahead of the later elements it compares equal to. *)
Definition sorted (l : list A) : list A := foldr sorted_insert [] l.
End Sorted.


(** *** Decoding *)

(** Little-endian unsigned value of a byte string. *)
Definition le_Z (bs : bytes) : Z :=
  foldr (λ x acc, Z.of_N (Byte.to_N x) + 256 * acc) 0 bs.

(** [struct.unpack('<I', bs)[0]]: exactly four bytes are required. *)
Definition unpack_I (bs : bytes) : result Z :=
  if bool_decide (length bs = 4%nat) then Ok (le_Z bs) else Raise StructError.

Definition is_cont (x : byte) : bool :=
  ((0x80 <=? Byte.to_N x) && (Byte.to_N x <=? 0xBF))%N.

Definition low6 (x : byte) : N := N.land (Byte.to_N x) 0x3F.

(** [bs.decode('utf-8', errors='ignore')]: the decoder of CPython, where
    an ill-formed sequence is dropped up to its first offending byte and
    a sequence cut short by the end of the input is dropped whole. *)
Fixpoint decode_utf8_ignore (bs : bytes) : str :=
  match bs with
  | [] => []
  | b0 :: r0 =>
    let c := Byte.to_N b0 in
    if (c <? 0x80)%N then c :: decode_utf8_ignore r0
    else if (c <? 0xC2)%N then decode_utf8_ignore r0
    else if (c <? 0xE0)%N then
      match r0 with
      | [] => []
      | b1 :: r1 =>
        if is_cont b1
        then (N.shiftl (N.land c 0x1F) 6 + low6 b1)%N :: decode_utf8_ignore r1
        else decode_utf8_ignore r0
      end
    else if (c <? 0xF0)%N then
      match r0 with
      | [] => []
      | b1 :: r1 =>
        let c1 := Byte.to_N b1 in
        if negb (is_cont b1) || (c =? 0xE0)%N && (c1 <? 0xA0)%N
           || (c =? 0xED)%N && (0xA0 <=? c1)%N
        then decode_utf8_ignore r0
        else match r1 with
             | [] => []
             | b2 :: r2 =>
               if is_cont b2
               then (N.shiftl (N.land c 0x0F) 12 + N.shiftl (low6 b1) 6 + low6 b2)%N
                      :: decode_utf8_ignore r2
               else decode_utf8_ignore r1
             end
      end
    else if (c <? 0xF5)%N then
      match r0 with
      | [] => []
      | b1 :: r1 =>
        let c1 := Byte.to_N b1 in
        if negb (is_cont b1) || (c =? 0xF0)%N && (c1 <? 0x90)%N
           || (c =? 0xF4)%N && (0x90 <=? c1)%N
        then decode_utf8_ignore r0
        else match r1 with
             | [] => []
             | b2 :: r2 =>
               if negb (is_cont b2) then decode_utf8_ignore r1
               else match r2 with
                    | [] => []
                    | b3 :: r3 =>
                      if is_cont b3
                      then (N.shiftl (N.land c 0x07) 18 + N.shiftl (low6 b1) 12
                            + N.shiftl (low6 b2) 6 + low6 b3)%N
                             :: decode_utf8_ignore r3
                      else decode_utf8_ignore r2
                    end
             end
      end
    else decode_utf8_ignore r0
  end.

Definition ascii_lower (c : N) : N :=
  if ((65 <=? c) && (c <=? 90))%N then (c + 32)%N else c.

(** *** float *)

(** The binary64 value with bit pattern [x]. *)
Definition float_of_bits (x : Z) : spec_float :=
  let s := Z.testbit x 63 in
  let e := Z.land (Z.shiftr x 52) 0x7FF in
  let m := Z.land x (2 ^ 52 - 1) in
  if e =? 0 then
    match m with Zpos p => S754_finite s p (-1074) | _ => S754_zero s end
  else if e =? 0x7FF then
    (if m =? 0 then S754_infinity s else S754_nan)
  else
    match m + 2 ^ 52 with
    | Zpos p => S754_finite s p (e - 1075)
    | _ => S754_nan
    end.

(** [struct.unpack('<4d', bs)]: exactly thirty-two bytes are required. *)
Definition unpack_4d (bs : bytes)
  : result (spec_float * spec_float * spec_float * spec_float) :=
  if bool_decide (length bs = 32%nat) then
    let d k := float_of_bits (le_Z (take 8 (drop k bs))) in
    Ok (d 0%nat, d 8%nat, d 16%nat, d 24%nat)
  else Raise StructError.

(** [a - b] on floats. *)
Definition fsub (a c : spec_float) : spec_float := SFsub 53 1024 a c.

(** [round(x)] of a float, to an int: ties go to the even neighbour;
    NaN raises [ValueError] and an infinity raises [OverflowError]. *)
Definition round (x : spec_float) : result Z :=
  match x with
  | S754_nan => Raise ValueError
  | S754_infinity _ => Raise OverflowError
  | S754_zero _ => Ok 0
  | S754_finite s m e =>
    let v :=
      if 0 <=? e then Zpos m * 2 ^ e
      else
        let d := 2 ^ (- e) in
        let q := Zpos m / d in
        match 2 * (Zpos m mod d) ?= d with
        | Lt => q
        | Gt => q + 1
        | Eq => if Z.even q then q else q + 1
        end in
    Ok (if s then - v else v)
  end.

End Py.

Import Py.

(** ** Marker scanner *)

(** The [while True] loop of [find_all], with its two variables. *)
Equations? find_all_loop (data pattern : bytes) (pos : Z) (positions : list Z)
  : list Z by wf (Z.to_nat (len data + 1 - pos)) lt :=
  find_all_loop data pattern pos positions with inspect (find data pattern pos) := {
    | exist _ p Hp with inspect (p =? -1) := {
        | exist _ true _ => positions
        | exist _ false Hne => find_all_loop data pattern (p + 1) (positions ++ [p]) } }.
Proof.
  assert (Hin : ∀ (l : bytes) (i : Z),
            find_in pattern l i = -1 ∨ i ≤ find_in pattern l i ≤ i + len l).
  { induction l as [|c l IH]; intros i; simpl.
    - case_bool_decide; unfold len; simpl; lia.
    - case_bool_decide; [unfold len; simpl; lia|].
      destruct (IH (i + 1)) as [->|?]; [auto|]. right. unfold len in *. simpl. lia. }
  apply Z.eqb_neq in Hne. unfold find in *.
  set (s := if pos <? 0 then _ else _) in *.
  assert (pos ≤ s) by (subst s; destruct (Z.ltb_spec pos 0); unfold len; lia).
  destruct (Z.ltb_spec (len data) s); [done|].
  destruct (Hin (drop (Z.to_nat s) data) s) as [?|Hr]; [done|].
  unfold len in *. rewrite length_drop in Hr. lia.
Qed.

(** [find_all(data, pattern)]. *)
Definition find_all (data pattern : bytes) : list Z :=
  find_all_loop data pattern 0 [].

(** ** Layer names *)

Definition layer_marker : bytes := b "1CgaT".

(** The byte test of the backward walk of [extract_layers]. *)
Definition layer_byte_ok (c : bytes) : bool :=
  bytes_isalnum c || bool_decide (c ∈ [b "_"; b " "; b "-"; b "."]).

(** The [while] loop of [extract_layers]: the final value of [start]. *)
Equations? layer_walk (data : bytes) (start : Z) : Z by wf (Z.to_nat start) lt :=
  layer_walk data start
    with inspect ((0 <? start) && layer_byte_ok (slice data start (start + 1))) := {
    | exist _ true Hc => layer_walk data (start - 1)
    | exist _ false _ => start }.
Proof. apply andb_prop in Hc. lia. Qed.

(** The candidate name of one occurrence. *)
Definition layer_name (data : bytes) (pos : Z) : str :=
  let start := layer_walk data (pos - 1) in
  strip (decode_ascii_ignore (slice data (start + 1) pos)).

(** The body of the [for] loop of [extract_layers]. *)
Definition layer_step (data : bytes) (names : gset str) (pos : Z) : gset str :=
  let name := layer_name data pos in
  if bool_decide (name ≠ []) && (1 <? len name) then names ∪ {[name]} else names.

(** [extract_layers(data)]. Slicing, decoding with [errors='ignore'] and
    set insertion cannot raise, so the function is a plain value. *)
Definition extract_layers (data : bytes) : list str :=
  let positions := find_all data layer_marker in
  let names := foldl (layer_step data) ∅ positions in
  sorted str_leb (elements names).

(** ** Font names *)

Definition font_marker : bytes := b "+ymaF".

(** The byte test of the backward walk of [extract_fonts]:
    [chr(x).isalnum() or chr(x) in '-_']. *)
Definition font_byte_ok (x : byte) : bool :=
  chr_isalnum x || bool_decide (x ∈ [x2d; x5f]).

(** The [while] loop of [extract_fonts]; [data[start]] may raise. *)
Equations? font_walk (data : bytes) (start : Z) : result Z by wf (Z.to_nat start) lt :=
  font_walk data start with inspect (0 <? start) := {
    | exist _ false _ => Ok start
    | exist _ true Hs with getitem data start := {
        | Raise e => Raise e
        | Ok x with font_byte_ok x := {
            | true => font_walk data (start - 1)
            | false => Ok start } } }.
Proof. lia. Qed.

(** The body of the [for] loop of [extract_fonts]. *)
Definition font_step (data : bytes) (pos : Z) (fonts : gset str) : result (gset str) :=
  start ← font_walk data (pos - 1);
  let font := decode_ascii_ignore (slice data (start + 1) pos) in
  Ok (if bool_decide (font ≠ []) then fonts ∪ {[font]} else fonts).

(** [extract_fonts(data)]. *)
Definition extract_fonts (data : bytes) : result (list str) :=
  let positions := find_all data font_marker in
  fonts ← for_each positions (font_step data) ∅;
  Ok (sorted str_leb (elements fonts)).

(** ** Bounding boxes *)

Definition bounds_marker : bytes := b "BphS".

(** The dict with keys [width], [height], [x] and [y]. *)
Record box := Box { width : Z; height : Z; x : Z; y : Z }.

Definition area (r : box) : Z := width r * height r.

(** The [try] block of [extract_bounds] on the pair [(bounds, seen)]. *)
Definition bounds_try (data : bytes) (pos : Z) (st : list box * gset (Z * Z * Z * Z))
  : result (list box * gset (Z * Z * Z * Z)) :=
  let '(bounds, seen) := st in
  vals ← unpack_4d (slice data (pos + 4) (pos + 36));
  let '(x1, y1, x2, y2) := vals in
  w ← round (fsub x2 x1);
  h ← round (fsub y2 y1);
  if (0 <? w) && (w <? 10000) && (0 <? h) && (h <? 10000) then
    rx ← round x1;
    ry ← round y1;
    let key := (w, h, rx, ry) in
    if bool_decide (key ∉ seen) then
      bx ← round x1;
      by' ← round y1;
      Ok (bounds ++ [Box w h bx by'], seen ∪ {[key]})
    else Ok st
  else Ok st.

(** The body of the [for] loop of [extract_bounds]. *)
Definition bounds_step (data : bytes) (pos : Z) (st : list box * gset (Z * Z * Z * Z))
  : result (list box * gset (Z * Z * Z * Z)) :=
  try_except_pass st (bounds_try data pos st).

(** The order of [sorted(..., key=area, reverse=True)]. *)
Definition area_geb (r1 r2 : box) : bool := area r2 <=? area r1.

(** [extract_bounds(data)]. *)
Definition extract_bounds (data : bytes) : result (list box) :=
  let positions := find_all data bounds_marker in
  st ← for_each positions (bounds_step data) ([], ∅);
  Ok (sorted area_geb st.1).

(** ** Text content, metadata and the report

    The parts of the interpreter and of the machine the script relies on
    are the variables of this section. *)

Section Script.
(** The values [json.loads] returns. *)
Context {json : Type}.
(** [json.loads] on bytes. *)
Variable json_loads : bytes → result json.
(** [str.lower] on a string that has a code point above 127. *)
Variable unicode_lower : str → str.
(** [open(path, 'rb').read()]. *)
Variable read_bytes : str → result bytes.
(** [Path(p).exists()]. *)
Variable path_exists : str → bool.
(** [str(Path(p))]. *)
Variable path_str : str → str.
(** [extract_zstd_data], which runs binwalk in a subprocess. *)
Variable extract_zstd_data : str → result (option bytes).

(** [s.lower()]. *)
Definition lower (s : str) : str :=
  if forallb (λ c, (c <? 128)%N) s then ascii_lower <$> s else unicode_lower s.

Definition text_marker : bytes := b "+8ftU".

Definition denylist : list str :=
  [u "siehe"; u "voir"; u "vedi"; u "consultar"; u "ver "; u "endnotes"].

(** The [try] block of [extract_text]. *)
Definition text_try (data : bytes) (pos : Z) (texts : gset str) : result (gset str) :=
  length ← unpack_I (slice data (pos + 5) (pos + 9));
  if (0 <? length) && (length <? 500) then
    let text := rstrip_nul (decode_utf8_ignore (slice data (pos + 9) (pos + 9 + length))) in
    if bool_decide (text ≠ []) && (0 <? len (strip text)) then
      if negb (existsb (λ t, contains t (lower text)) denylist)
      then Ok (texts ∪ {[strip text]})
      else Ok texts
    else Ok texts
  else Ok texts.

(** The body of the [for] loop of [extract_text]. *)
Definition text_step (data : bytes) (pos : Z) (texts : gset str) : result (gset str) :=
  try_except_pass texts (text_try data pos texts).

(** [extract_text(data)]. *)
Definition extract_text (data : bytes) : result (list str) :=
  let positions := find_all data text_marker in
  texts ← for_each positions (text_step data) ∅;
  Ok (sorted str_leb (elements texts)).

(** The opening sequence: a brace and the quoted word [document]. *)
Definition document_prefix : bytes := [x7b; x22] ++ b "document" ++ [x22].

(** [extract_metadata(af_path)]. *)
Definition extract_metadata (af_path : str) : result (option json) :=
  raw ← read_bytes af_path;
  let start := find raw document_prefix 0 in
  if negb (start =? -1) then
    let end_ := find raw (b "}}") start + 2 in
    match json_loads (slice raw start end_) with
    | Ok v => Ok (Some v)
    | Raise _ => Ok None
    end
  else Ok None.

(** The dict [result] of [main]. *)
Record report := Report {
  source : str;
  metadata : option json;
  layers : list str;
  text_content : list str;
  fonts : list str;
  element_sizes : list box }.

(** [sys.argv[i]]. *)
Definition argv_get (argv : list str) (i : nat) : result str :=
  match argv !! i with Some a => Ok a | None => Raise IndexError end.

(** [Path(sys.argv[i]) if len(sys.argv) > i else None]. *)
Definition argv_opt (argv : list str) (i : nat) : option str :=
  if Z.of_nat i <? len argv then argv !! i else None.

(** The part of [main] after the input is read: the report. *)
Definition assemble (src : str) (meta : option json) (data : bytes) : result report :=
  ls ← Ok (extract_layers data);
  ts ← extract_text data;
  fs ← extract_fonts data;
  bs ← extract_bounds data;
  Ok (Report src meta ls ts fs (slice bs 0 30)).

(** [main()] up to the dict [result]: the report and the output path
    it is then serialised to. [sys.exit(n)] raises [SystemExit]. *)
Definition main (argv : list str) : result (report * option str) :=
  if len argv <? 2 then Raise (SystemExit 1)
  else
    a1 ← argv_get argv 1;
    if bool_decide (a1 = u "--from-bin") then
      if len argv <? 3 then Raise (SystemExit 1)
      else
        bin_path ← argv_get argv 2;
        let output_path := argv_opt argv 3 in
        data ← read_bytes bin_path;
        let meta := None in
        let src := path_str bin_path in
        r ← assemble src meta data;
        Ok (r, output_path)
    else
      let af_path := a1 in
      let output_path := argv_opt argv 2 in
      if negb (path_exists af_path) then Raise (SystemExit 1)
      else
        meta ← extract_metadata af_path;
        data ← extract_zstd_data af_path;
        let src := path_str af_path in
        match data with
        | None | Some [] => Raise (SystemExit 1)
        | Some data =>
          r ← assemble src meta data;
          Ok (r, output_path)
        end.
End Script.

(** ** The decompressed stream

    [extract_zstd_data] runs binwalk in a subprocess and looks through
    the directory it fills. The machine is the variables of this
    section: what running a command leads to, and what a file holds. *)

(** What [subprocess.run(cmd, capture_output=True)] leads to: the command
    ran, whatever its exit status, and [os.walk(tmpdir)] then yields the
    given triples [(root, dirs, files)]; or the program was not found
    ([FileNotFoundError]); or another exception was raised. *)
Inductive run_outcome :=
  | Completed (walk : list (str * list str * list str))
  | NotFound
  | Failed (e : exn).

Section Zstd.
Variable unicode_lower : str → str.
(** The name [tempfile.TemporaryDirectory()] gives. *)
Variable tmpdir : str.
Variable subprocess_run : list str → run_outcome.
Variable read_bytes : str → result bytes.
(** [str(Path(p))] and [Path(root) / f]. *)
Variable path_str : str → str.
Variable path_join : str → str → str.

Definition binwalk_cmd (af_path : str) : list str :=
  [u "binwalk"; u "--extract"; u "--directory"; tmpdir; path_str af_path].

Definition nix_cmd (af_path : str) : list str :=
  [u "nix-shell"; u "-p"; u "binwalk"; u "--run";
   u "binwalk --extract --directory " ++ tmpdir ++ u " '" ++ path_str af_path ++ u "'"].

(** ['zstd' in f.lower() or f.startswith('4C')]. *)
Definition zstd_name (f : str) : bool :=
  contains (u "zstd") (lower unicode_lower f) || bool_decide (u "4C" `prefix_of` f).

(** The inner loop: the path of the first file of [files] that passes. *)
Fixpoint scan_files (root : str) (files : list str) : option str :=
  match files with
  | [] => None
  | f :: files' => if zstd_name f then Some (path_join root f) else scan_files root files'
  end.

(** The outer loop over the triples of [os.walk]. *)
Fixpoint scan_walk (walk : list (str * list str * list str)) : option str :=
  match walk with
  | [] => None
  | (root, _, files) :: walk' =>
    match scan_files root files with
    | Some fpath => Some fpath
    | None => scan_walk walk'
    end
  end.

(** [extract_zstd_data(af_path)]. A [FileNotFoundError] of the second
    command is not caught; it is an [OSError]. *)
Definition extract_zstd_data (af_path : str) : result (option bytes) :=
  walk ← match subprocess_run (binwalk_cmd af_path) with
         | Completed walk => Ok walk
         | NotFound =>
           match subprocess_run (nix_cmd af_path) with
           | Completed walk => Ok walk
           | NotFound => Raise OSError
           | Failed e => Raise e
           end
         | Failed e => Raise e
         end;
  match scan_walk walk with
  | Some fpath => data ← read_bytes fpath; Ok (Some data)
  | None => Ok None
  end.

(** The commands ran and left the directory as [walk] lists it: binwalk
    itself, or the nix-shell command after binwalk was not found. *)
Definition ran (af_path : str) (walk : list (str * list str * list str)) : Prop :=
  subprocess_run (binwalk_cmd af_path) = Completed walk ∨
  (subprocess_run (binwalk_cmd af_path) = NotFound ∧
   subprocess_run (nix_cmd af_path) = Completed walk).

(** No file listed in [walk] has a name that passes. *)
Definition no_zstd_name (walk : list (str * list str * list str)) : Prop :=
  ∀ root dirs files f, (root, dirs, files) ∈ walk → f ∈ files → zstd_name f = false.
End Zstd.

(** ** The whole of [main]

    [main] with what it prints and with the output stage that follows
    the report. *)

Section Whole.
Context {json : Type}.
Variable json_loads : bytes → result json.
Variable unicode_lower : str → str.
Variable read_bytes : str → result bytes.
(** [Path.exists()], which on some versions of the interpreter raises
    the error of the underlying [stat] when it is not one of those that
    mean the file is absent. *)
Variable path_exists : str → result bool.
Variable path_str : str → str.
Variable extract_zstd_data : str → result (option bytes).
(** The docstring of the module, [__doc__]. *)
Variable doc : str.
(** [print(text)], and [print(text, file=sys.stderr)] when the flag is
    set. *)
Variable print : bool → str → result unit.
(** [json.dumps(result, indent=2)]. *)
Variable json_dumps : @report json → result str.
(** [with open(path, 'w') as f: f.write(text)]. *)
Variable write_text : str → str → result unit.

(** The first part of [main]: the stream, the metadata, the source and
    the output path, once the input is read. *)
Definition main_input (argv : list str)
  : result (bytes * option json * str * option str) :=
  if len argv <? 2 then
    _ ← print false doc; Raise (SystemExit 1)
  else
    a1 ← argv_get argv 1;
    if bool_decide (a1 = u "--from-bin") then
      if len argv <? 3 then
        _ ← print false (u "Error: --from-bin requires a path to extracted binary data");
        Raise (SystemExit 1)
      else
        bin_path ← argv_get argv 2;
        let output_path := argv_opt argv 3 in
        data ← read_bytes bin_path;
        let meta := None in
        let src := path_str bin_path in
        Ok (data, meta, src, output_path)
    else
      let af_path := a1 in
      let output_path := argv_opt argv 2 in
      found ← path_exists af_path;
      if negb found then
        _ ← print false (u "Error: " ++ path_str af_path ++ u " not found");
        Raise (SystemExit 1)
      else
        meta ← extract_metadata json_loads read_bytes af_path;
        _ ← print true (u "Extracting from " ++ path_str af_path ++ u "...");
        data ← extract_zstd_data af_path;
        let src := path_str af_path in
        match data with
        | None | Some [] =>
          _ ← print true (u "Error: Could not extract ZSTD data. Is binwalk installed?");
          Raise (SystemExit 1)
        | Some data => Ok (data, meta, src, output_path)
        end.

(** [main()], all of it. *)
Definition main_whole (argv : list str) : result unit :=
  input ← main_input argv;
  let '(data, meta, src, output_path) := input in
  r ← assemble unicode_lower src meta data;
  output ← json_dumps r;
  match output_path with
  | Some path =>
    _ ← write_text path output;
    print true (u "Written to " ++ path_str path)
  | None => print false output
  end.
End Whole.

(** * Vocabulary of the specification *)

(** The marker [M] occurs in [B] at offset [o]: [B[o:o+len(M)] == M]. *)
Definition occurs_at (B M : bytes) (o : Z) : Prop := slice B o (o + len M) = M.

#[global] Instance occurs_at_dec B M o : Decision (occurs_at B M o).
Proof. unfold occurs_at. apply _. Defined.

(** The brute-force scan: try every offset of the buffer in turn. *)
Definition brute_force (B M : bytes) : list Z :=
  filter (occurs_at B M) (seqZ 0 (len B + 1)).

(** [s <= t] on str. *)
Definition str_le (s t : str) : Prop := str_leb s t = true.

(** Where the names of [extract_fonts] come from. *)
Definition font_origin (data : bytes) (f : str) : Prop :=
  f ≠ [] ∧ ∃ pos a, pos ∈ find_all data font_marker ∧ 1 ≤ a ≤ pos ∧
                    f = decode_ascii_ignore (slice data a pos).

(** The decoded, null-stripped text of the occurrence at [pos] with
    declared length [length]. *)
Definition text_at (data : bytes) (pos length : Z) : str :=
  rstrip_nul (decode_utf8_ignore (slice data (pos + 9) (pos + 9 + length))).

(** The lowercase form of [text] contains a denylist token. *)
Definition denied (ul : str → str) (text : str) : bool :=
  existsb (λ t, contains t (lower ul text)) denylist.

(** What the occurrence at [pos] adds to the set, if anything. *)
Definition text_kept (ul : str → str) (data : bytes) (pos : Z) : option str :=
  match unpack_I (slice data (pos + 5) (pos + 9)) with
  | Ok length =>
    let text := text_at data pos length in
    if (0 <? length) && (length <? 500) && bool_decide (strip text ≠ [])
       && negb (denied ul text)
    then Some (strip text) else None
  | Raise _ => None
  end.

(** The 4-tuple [(w, h, round(x1), round(y1))] of a box. *)
Definition box_key (r : box) : Z * Z * Z * Z := (width r, height r, x r, y r).

(** The box the occurrence at [pos] yields, if it parses and is in range. *)
Definition box_kept (data : bytes) (pos : Z) : option box :=
  match unpack_4d (slice data (pos + 4) (pos + 36)) with
  | Ok (x1, y1, x2, y2) =>
    match round (fsub x2 x1), round (fsub y2 y1), round x1, round y1 with
    | Ok w, Ok h, Ok rx, Ok ry =>
      if (0 <? w) && (w <? 10000) && (0 <? h) && (h <? 10000)
      then Some (Box w h rx ry) else None
    | _, _, _, _ => None
    end
  | Raise _ => None
  end.

(** One turn of the loop of [extract_bounds], as a function. *)
Definition bounds_next (data : bytes) (st : list box * gset (Z * Z * Z * Z)) (pos : Z)
  : list box * gset (Z * Z * Z * Z) :=
  match box_kept data pos with
  | Some r =>
    if bool_decide (box_key r ∉ st.2) then (st.1 ++ [r], st.2 ∪ {[box_key r]}) else st
  | None => st
  end.

(** The filter as the specification words it: for a valid declared
    length the trimmed string is dropped when its own lowercase form
    contains a denylist token and is added otherwise. *)
Definition text_filter_on_trimmed (ul : str → str) : Prop :=
  ∀ (data : bytes) (pos length : Z) (texts : gset str),
    unpack_I (slice data (pos + 5) (pos + 9)) = Ok length →
    0 < length < 500 →
    let trimmed := strip (text_at data pos length) in
    text_step ul data pos texts =
    Ok (if denied ul trimmed then texts else texts ∪ {[trimmed]}).

(** ** Sample buffers *)

(** The [n] low bytes of [v], little-endian. *)
Definition le_bytes (n : nat) (v : Z) : bytes :=
  (λ i : nat, default x00 (Byte.of_N (Z.to_N (Z.land (Z.shiftr v (8 * Z.of_nat i)) 0xFF))))
    <$> seq 0 n.

(** A text occurrence: marker, declared length, payload. *)
Definition text_record (length : Z) (payload : bytes) : bytes :=
  text_marker ++ le_bytes 4 length ++ payload.

(** A box occurrence: marker and the bit patterns of four doubles. *)
Definition box_record (x1 y1 x2 y2 : Z) : bytes :=
  bounds_marker ++ le_bytes 8 x1 ++ le_bytes 8 y1 ++ le_bytes 8 x2 ++ le_bytes 8 y2.

(** Bit patterns of some doubles. *)
Definition f64_0 : Z := 0x0000000000000000.
Definition f64_10 : Z := 0x4024000000000000.
Definition f64_50 : Z := 0x4049000000000000.
Definition f64_60 : Z := 0x404E000000000000.
Definition f64_100 : Z := 0x4059000000000000.
Definition f64_200 : Z := 0x4069000000000000.
Definition f64_250 : Z := 0x406F400000000000.
Definition f64_15000 : Z := 0x40CD4C0000000000.

(** [str.lower] restricted to ASCII text: the table above 127 is never
    consulted on the sample buffers. *)
Definition ascii_only : str → str := λ s, s.

(** A metadata blob: the opening sequence, a colon and an empty object,
    closed by a double brace. *)
Definition sample_document : bytes := document_prefix ++ b ":{}}".

(** A stand-in for [json.loads] that accepts [sample_document] only and
    returns it unparsed. *)
Definition sample_json_loads (bs : bytes) : result bytes :=
  if bool_decide (bs = sample_document) then Ok bs else Raise JSONDecodeError.

(** A raw file with a metadata blob between other bytes. *)
Definition sample_raw : bytes := b "head" ++ sample_document ++ b "tail}}".

(** The characters a layer name is made of: ASCII letters and digits,
    underscore, space, hyphen and full stop. *)
Definition layer_char (c : N) : bool :=
  ascii_isalnum c || bool_decide (c ∈ [95; 32; 45; 46]%N).

(** The characters a font name is made of: ASCII letters and digits,
    hyphen and underscore. *)
Definition font_char (c : N) : bool :=
  ascii_isalnum c || bool_decide (c ∈ [45; 95]%N).

(** One turn of the loop of [extract_fonts], as a function. *)
Definition font_next (data : bytes) (fonts : gset str) (pos : Z) : gset str :=
  match font_walk data (pos - 1) with
  | Ok start =>
    let font := decode_ascii_ignore (slice data (start + 1) pos) in
    if bool_decide (font ≠ []) then fonts ∪ {[font]} else fonts
  | Raise _ => fonts
  end.

(** [a] stands before [c] in the list [l]. *)
Definition precedes {A} (l : list A) (a c : A) : Prop :=
  ∃ l1 l2 l3, l = l1 ++ a :: l2 ++ c :: l3.

(** A machine without binwalk, where the nix-shell command leaves two
    directories behind. *)
Definition sample_walk : list (str * list str * list str) :=
  [(u "/tmp/x", [u "sub"], [u "readme.txt"]);
   (u "/tmp/x/sub", [], [u "a.bin"; u "B.ZSTD"; u "4Cfile"])].

Definition sample_run (cmd : list str) : run_outcome :=
  if bool_decide (head cmd = Some (u "binwalk")) then NotFound else Completed sample_walk.

Definition sample_join (root f : str) : str := root ++ u "/" ++ f.

(** Only one file of the sample machine can be read. *)
Definition sample_read (path : str) : result bytes :=
  if bool_decide (path = u "/tmp/x/sub/B.ZSTD") then Ok (text_record 11 (b "Hello World"))
  else Raise OSError.

(** The lookup as the specification words it: whenever the opening
    sequence is followed by some closing double brace and the bytes
    from the one to the other are valid JSON, the lookup returns the
    object parsed from them. *)
Definition metadata_any_closing {json : Type} (json_loads : bytes → result json)
    (read_bytes : str → result bytes) : Prop :=
  ∀ (af_path : str) (raw : bytes) (o c : Z) (v : json),
    read_bytes af_path = Ok raw → 0 ≤ o ≤ c →
    occurs_at raw document_prefix o → occurs_at raw (b "}}") c →
    json_loads (slice raw o (c + 2)) = Ok v →
    extract_metadata json_loads read_bytes af_path = Ok (Some v).

(** A metadata blob with an object inside an object inside the
    document: its text ends in three closing braces. *)
Definition nested_document : bytes :=
  document_prefix ++ b ":{" ++ [x22] ++ b "a" ++ [x22] ++ b ":{"
    ++ [x22] ++ b "b" ++ [x22] ++ b ":1}}}".

Definition nested_raw : bytes := b "head" ++ nested_document ++ b "tail".

(** A stand-in for [json.loads] that accepts [nested_document] only. It
    answers as [json.loads] does on the two spans of [nested_raw] that
    matter: the whole blob is valid JSON, the blob without its last
    brace is not. *)
Definition nested_json_loads (bs : bytes) : result bytes :=
  if bool_decide (bs = nested_document) then Ok bs else Raise JSONDecodeError.

(** * Properties *)

(** ** The marker scanner *)

Lemma len_nonneg {A} (l : list A) : 0 ≤ len l.
Proof. unfold len. lia. Qed.

Lemma slice_nonneg {A} (data : list A) i j :
  0 ≤ i → 0 ≤ j →
  slice data i j = take (Z.to_nat (j - i)) (drop (Z.to_nat i) data).
Proof.
  intros Hi Hj. unfold slice, clip.
  pose proof (len_nonneg data).
  destruct (Z.ltb_spec i 0), (Z.ltb_spec j 0); try lia.
  destruct (Z.le_gt_cases i (len data)), (Z.le_gt_cases j (len data)).
  - by rewrite !Z.min_l by lia.
  - rewrite (Z.min_l i), (Z.min_r j) by lia.
    rewrite !take_ge by (rewrite length_drop; unfold len in *; lia). done.
  - rewrite (Z.min_r i), (Z.min_l j) by lia.
    replace (Z.to_nat (j - len data)) with 0%nat by lia.
    replace (Z.to_nat (j - i)) with 0%nat by lia. done.
  - rewrite !Z.min_r by lia.
    rewrite !drop_ge by (unfold len in *; lia). by rewrite !take_nil.
Qed.

(** For a non-empty marker, an occurrence is a prefix of the rest of the
    buffer. *)
Lemma occurs_at_prefix (B M : bytes) (k : nat) :
  M ≠ [] →
  occurs_at B M (Z.of_nat k) ↔ (k ≤ length B)%nat ∧ M `prefix_of` drop k B.
Proof.
  intros HM. unfold occurs_at.
  rewrite slice_nonneg by (pose proof (len_nonneg M); lia).
  replace (Z.to_nat (Z.of_nat k + len M - Z.of_nat k)) with (length M) by (unfold len; lia).
  rewrite Nat2Z.id. split.
  - intros E. split.
    + destruct (decide (k ≤ length B)%nat); [done|].
      rewrite drop_ge, take_nil in E by lia. congruence.
    + rewrite <- E at 1. apply prefix_take.
  - intros [_ [t Ht]]. by rewrite Ht, take_app_length.
Qed.

Lemma find_in_spec (sub l : bytes) (i : Z) :
  (find_in sub l i = -1 ∧ ∀ k, (k ≤ length l)%nat → ¬ sub `prefix_of` drop k l) ∨
  (∃ k, (k ≤ length l)%nat ∧ find_in sub l i = i + Z.of_nat k ∧
        sub `prefix_of` drop k l ∧ ∀ j, (j < k)%nat → ¬ sub `prefix_of` drop j l).
Proof.
  revert i. induction l as [|a l IH]; intros i; simpl.
  - case_bool_decide as Hp.
    + right. exists 0%nat. repeat split; [lia|lia|done|lia].
    + left. split; [done|]. intros k Hk. by rewrite drop_nil.
  - case_bool_decide as Hp.
    + right. exists 0%nat. repeat split; [lia|lia|done|lia].
    + destruct (IH (i + 1)) as [[E Hn]|(k & Hk & E & Hpk & Hlt)].
      * left. split; [done|]. intros [|k] Hk; [done|]. simpl in *. apply Hn. lia.
      * right. exists (S k). repeat split; [simpl; lia|lia|done|].
        intros [|j] Hj; [done|]. simpl. apply Hlt. lia.
Qed.

(** [find] misses: the marker does not occur at or after [start]. *)
Lemma find_none (B M : bytes) (start : Z) :
  M ≠ [] → 0 ≤ start → find B M start = -1 →
  ∀ o, start ≤ o → ¬ occurs_at B M o.
Proof.
  intros HM Hs E o Ho Hocc. unfold find in E.
  destruct (Z.ltb_spec start 0); [lia|].
  rewrite <- (Z2Nat.id o) in Hocc by lia.
  apply occurs_at_prefix in Hocc as [Hle Hp]; [|done].
  destruct (Z.ltb_spec (len B) start); [unfold len in *; lia|].
  destruct (find_in_spec M (drop (Z.to_nat start) B) start)
    as [[_ Hn]|(k & _ & E' & _)]; [|lia].
  apply (Hn (Z.to_nat o - Z.to_nat start)%nat).
  - rewrite length_drop. lia.
  - rewrite drop_drop. by replace (Z.to_nat start + (Z.to_nat o - Z.to_nat start))%nat
      with (Z.to_nat o) by lia.
Qed.

(** [find] hits: the answer is the first occurrence at or after [start]. *)
Lemma find_some (B M : bytes) (start : Z) :
  M ≠ [] → 0 ≤ start → find B M start ≠ -1 →
  start ≤ find B M start ≤ len B ∧ occurs_at B M (find B M start) ∧
  ∀ o, start ≤ o < find B M start → ¬ occurs_at B M o.
Proof.
  intros HM Hs E. unfold find in *.
  destruct (Z.ltb_spec start 0); [lia|].
  destruct (Z.ltb_spec (len B) start); [done|].
  destruct (find_in_spec M (drop (Z.to_nat start) B) start)
    as [[? _]|(k & Hk & E' & Hp & Hlt)]; [done|].
  rewrite E'. rewrite length_drop in Hk. rewrite drop_drop in Hp.
  split; [unfold len in *; lia|]. split.
  - replace (start + Z.of_nat k) with (Z.of_nat (Z.to_nat start + k)) by lia.
    apply occurs_at_prefix; [done|]. split; [unfold len in *; lia|done].
  - intros o Ho Hocc. rewrite <- (Z2Nat.id o) in Hocc by lia.
    apply occurs_at_prefix in Hocc as [_ Hp']; [|done].
    apply (Hlt (Z.to_nat o - Z.to_nat start)%nat); [lia|].
    rewrite drop_drop. by replace (Z.to_nat start + (Z.to_nat o - Z.to_nat start))%nat
      with (Z.to_nat o) by lia.
Qed.

Lemma filter_none {A} (P : A → Prop) `{∀ x, Decision (P x)} (l : list A) :
  (∀ x, x ∈ l → ¬ P x) → filter P l = [].
Proof.
  intros Hn. induction l as [|a l IH]; [done|].
  rewrite filter_cons_False by (apply Hn; left).
  apply IH. intros z Hz. apply Hn. by right.
Qed.

(** The loop appends, in order, the occurrences at or after [pos]. *)
Lemma find_all_loop_spec (data pattern : bytes) (pos : Z) (positions : list Z) :
  pattern ≠ [] → 0 ≤ pos →
  find_all_loop data pattern pos positions =
  positions ++ filter (occurs_at data pattern) (seqZ pos (len data + 1 - pos)).
Proof.
  intros HM. funelim (find_all_loop data pattern pos positions); intros Hpos.
  - pose proof (proj1 (Z.eqb_eq _ _) e) as E.
    rewrite filter_none; [by rewrite app_nil_r|].
    intros o Ho%elem_of_seqZ. eapply find_none; [done|exact Hpos|done|lia].
  - pose proof (proj1 (Z.eqb_neq _ _) Hne) as E.
    destruct (find_some data pattern pos HM Hpos E) as (Hr & Hocc & Hlt).
    match goal with IH : _ → _ → find_all_loop _ _ _ _ = _ |- _ => rewrite IH by (done || lia) end.
    set (p := find data pattern pos) in *.
    rewrite <- app_assoc. f_equal.
    replace (len data + 1 - pos) with ((p - pos) + (1 + (len data + 1 - (p + 1)))) by lia.
    rewrite seqZ_app by lia. rewrite filter_app.
    rewrite (filter_none _ (seqZ pos _)); [|intros o Ho%elem_of_seqZ; apply Hlt; lia].
    replace (pos + (p - pos)) with p by lia.
    rewrite (seqZ_cons p) by lia. rewrite filter_cons_True by done.
    replace (Z.succ p) with (p + 1) by lia.
    by replace (Z.pred (1 + (len data + 1 - (p + 1)))) with (len data + 1 - (p + 1)) by lia.
Qed.

Lemma find_all_brute_force (B M : bytes) :
  M ≠ [] → find_all B M = brute_force B M.
Proof.
  intros HM. unfold find_all, brute_force.
  rewrite find_all_loop_spec by (done || lia). simpl. by rewrite Z.sub_0_r.
Qed.

Lemma seq_sorted (a n : nat) : StronglySorted lt (seq a n).
Proof.
  revert a. induction n as [|n IH]; intros a; simpl; constructor; [apply IH|].
  apply Forall_forall. intros k Hk%list_elem_of_In%in_seq. lia.
Qed.

Lemma seqZ_sorted (m n : Z) : StronglySorted Z.lt (seqZ m n).
Proof.
  unfold seqZ. eapply StronglySorted_fmap; [|apply seq_sorted].
  intros i j Hij. simpl. lia.
Qed.

Lemma StronglySorted_filter {A} (R : relation A) (P : A → Prop)
    `{∀ x, Decision (P x)} (l : list A) :
  StronglySorted R l → StronglySorted R (filter P l).
Proof.
  induction 1 as [|a l Hs IH Hall]; [constructor|].
  rewrite filter_cons. case_decide; [|done].
  constructor; [done|].
  apply Forall_forall. intros z [_ Hz]%list_elem_of_filter.
  eapply Forall_forall in Hall; done.
Qed.

(** An occurrence of a non-empty marker lies inside the buffer. *)
Lemma find_all_bound (data pattern : bytes) (pos : Z) :
  pattern ≠ [] → pos ∈ find_all data pattern →
  0 ≤ pos ∧ pos + len pattern ≤ len data.
Proof.
  intros HM. rewrite find_all_brute_force by done.
  intros [Hocc Hpos%elem_of_seqZ]%list_elem_of_filter. split; [lia|].
  rewrite <- (Z2Nat.id pos) in Hocc by lia.
  apply occurs_at_prefix in Hocc as [Hle Hp]; [|done].
  apply prefix_length in Hp. rewrite length_drop in Hp. unfold len. lia.
Qed.

(** C1. For every buffer [B] and non-empty marker [M], [find_all B M] is
    strictly increasing, every returned offset is an occurrence of [M],
    every occurrence (overlapping ones included) is returned, the list
    is the one a brute-force scan of all offsets finds, and it is empty
    when [M] does not occur. *)
Theorem find_all_correct (B M : bytes) :
  M ≠ [] →
  StronglySorted Z.lt (find_all B M) ∧
  (∀ o, o ∈ find_all B M → 0 ≤ o ∧ slice B o (o + len M) = M) ∧
  (∀ o, 0 ≤ o → slice B o (o + len M) = M → o ∈ find_all B M) ∧
  find_all B M = brute_force B M ∧
  ((∀ o, 0 ≤ o → slice B o (o + len M) ≠ M) → find_all B M = []).
Proof.
  intros HM. rewrite find_all_brute_force by done. unfold brute_force.
  assert (Hcomplete : ∀ o, 0 ≤ o → slice B o (o + len M) = M →
            o ∈ filter (occurs_at B M) (seqZ 0 (len B + 1))).
  { intros o Ho Hocc. apply list_elem_of_filter. split; [done|].
    apply elem_of_seqZ. split; [lia|].
    rewrite <- (Z2Nat.id o) in Hocc by lia.
    apply occurs_at_prefix in Hocc as [Hle _]; [|done]. unfold len. lia. }
  split; [|split; [|split; [|split]]].
  - apply StronglySorted_filter, seqZ_sorted.
  - intros o [Hocc Ho%elem_of_seqZ]%list_elem_of_filter. split; [lia|done].
  - done.
  - done.
  - intros Hnone. apply filter_none.
    intros o Ho%elem_of_seqZ Hocc. apply (Hnone o); [lia|done].
Qed.

(** The scan at the buffer [aaaa] with marker [aa]: three overlapping
    occurrences. *)
Lemma find_all_correct_witness :
  b "aa" ≠ [] ∧ find_all (b "aaaa") (b "aa") = [0; 1; 2] ∧
  StronglySorted Z.lt (find_all (b "aaaa") (b "aa")).
Proof.
  split; [done|]. split; [reflexivity|].
  apply (find_all_correct (b "aaaa") (b "aa")). done.
Defined.

(** ** Sorting *)

Section SortedFacts.
Context {A : Type} (leb : A → A → bool).
Hypothesis leb_total : ∀ a c, leb a c = true ∨ leb c a = true.
Hypothesis leb_trans : ∀ a c d, leb a c = true → leb c d = true → leb a d = true.

Lemma sorted_insert_perm (a : A) (l : list A) : sorted_insert leb a l ≡ₚ a :: l.
Proof.
  induction l as [|c l IH]; simpl; [done|].
  destruct (leb a c); [done|]. rewrite IH. apply Permutation_swap.
Qed.

Lemma sorted_perm (l : list A) : sorted leb l ≡ₚ l.
Proof.
  induction l as [|a l IH]; simpl; [done|].
  by rewrite sorted_insert_perm, IH.
Qed.

Lemma sorted_insert_sorted (a : A) (l : list A) :
  StronglySorted (λ c d, leb c d = true) l →
  StronglySorted (λ c d, leb c d = true) (sorted_insert leb a l).
Proof.
  induction 1 as [|c l Hs IH Hall]; simpl; [repeat constructor|].
  destruct (leb a c) eqn:E.
  - constructor; [by constructor|]. constructor; [done|].
    eapply Forall_impl; [exact Hall|]. intros d Hd. by eapply leb_trans.
  - constructor; [done|].
    rewrite sorted_insert_perm. constructor; [|done].
    destruct (leb_total a c); congruence.
Qed.

Lemma sorted_sorted (l : list A) :
  StronglySorted (λ c d, leb c d = true) (sorted leb l).
Proof.
  induction l as [|a l IH]; simpl; [constructor|].
  by apply sorted_insert_sorted.
Qed.

Lemma sorted_elem_of (a : A) (l : list A) : a ∈ sorted leb l ↔ a ∈ l.
Proof. by rewrite sorted_perm. Qed.

Lemma sorted_NoDup (l : list A) : NoDup l → NoDup (sorted leb l).
Proof. by rewrite sorted_perm. Qed.
End SortedFacts.

Lemma str_leb_total (s t : str) : str_leb s t = true ∨ str_leb t s = true.
Proof.
  revert t. induction s as [|c s IH]; intros [|d t]; simpl; auto.
  destruct (N.ltb_spec c d), (N.ltb_spec d c), (N.eqb_spec c d), (N.eqb_spec d c);
    simpl; auto; lia.
Qed.

Lemma str_leb_trans (s t r : str) :
  str_leb s t = true → str_leb t r = true → str_leb s r = true.
Proof.
  revert t r. induction s as [|c s IH]; intros [|d t] [|e r]; simpl; auto; try done.
  destruct (N.ltb_spec c d), (N.ltb_spec d e), (N.ltb_spec c e),
    (N.eqb_spec c d), (N.eqb_spec d e), (N.eqb_spec c e); simpl; auto; try lia.
  apply IH.
Qed.

Lemma sorted_str_sorted (l : list str) : StronglySorted str_le (sorted str_leb l).
Proof. apply sorted_sorted; [apply str_leb_total|apply str_leb_trans]. Qed.

(** ** The backward walks *)

Lemma layer_walk_range (data : bytes) (start : Z) :
  (start ≤ 0 → layer_walk data start = start) ∧
  (0 < start → 0 ≤ layer_walk data start ≤ start).
Proof.
  funelim (layer_walk data start).
  - pose proof (andb_prop _ _ Hc) as [Hs%Z.ltb_lt _].
    match goal with IH : _ ∧ _ |- _ => destruct IH as [IH0 IH1] end.
    split; [lia|]. intros _.
    destruct (decide (start - 1 ≤ 0)); [rewrite IH0 by done; lia|].
    specialize (IH1 ltac:(lia)). lia.
  - split; [done|lia].
Qed.

Lemma getitem_in_range (data : bytes) (i : Z) :
  0 ≤ i < len data → ∃ c, getitem data i = Ok c.
Proof.
  intros Hi. unfold getitem.
  destruct (Z.ltb_spec i 0); [lia|].
  destruct (Z.ltb_spec i 0); [lia|].
  destruct (Z.leb_spec (len data) i); [lia|]. simpl.
  destruct (lookup_lt_is_Some_2 data (Z.to_nat i)) as [c ->]; [unfold len in *; lia|].
  by exists c.
Qed.

(** The walk of [extract_fonts] never indexes outside the buffer when it
    starts below the end of the buffer. *)
Lemma font_walk_range (data : bytes) (start : Z) :
  start < len data →
  ∃ s, font_walk data start = Ok s ∧
       (start ≤ 0 → s = start) ∧ (0 < start → 0 ≤ s ≤ start).
Proof.
  funelim (font_walk data start); intros Hlt.
  - exists start. split; [done|]. pose proof (proj1 (Z.ltb_ge _ _) e). split; [done|lia].
  - pose proof (proj1 (Z.ltb_lt _ _) Hs).
    destruct (getitem_in_range data start) as [c Hc]; [lia|]. congruence.
  - pose proof (proj1 (Z.ltb_lt _ _) Hs).
    match goal with IH : _ → ex _ |- _ => destruct IH as (s & -> & Ha & Hb); [lia|] end.
    exists s. split; [done|]. split; [lia|]. intros _.
    destruct (decide (start - 1 ≤ 0)); [rewrite Ha by done; lia|].
    specialize (Hb ltac:(lia)). lia.
  - pose proof (proj1 (Z.ltb_lt _ _) Hs). exists start. split; [done|]. split; lia.
Qed.

Lemma slice_empty {A} (data : list A) (i : Z) : 0 ≤ i → slice data i i = [].
Proof. intros. rewrite slice_nonneg by done. by rewrite Z.sub_diag. Qed.

(** ** Layer and font names *)

(** A candidate of [extract_layers] that is kept starts at index 1 or
    later. *)
Lemma layer_name_origin (data : bytes) (pos : Z) :
  0 ≤ pos → 1 < len (layer_name data pos) →
  ∃ a, 1 ≤ a ≤ pos ∧ layer_name data pos = strip (decode_ascii_ignore (slice data a pos)).
Proof.
  intros Hpos Hlen. unfold layer_name in *.
  destruct (layer_walk_range data (pos - 1)) as [H0 H1].
  destruct (decide (pos = 0)) as [->|Hne].
  - rewrite H0 in Hlen by lia. simpl in Hlen.
    rewrite slice_empty in Hlen by lia. by vm_compute in Hlen.
  - exists (layer_walk data (pos - 1) + 1). split; [|done].
    destruct (decide (pos - 1 ≤ 0)); [rewrite H0 by done; lia|].
    specialize (H1 ltac:(lia)). lia.
Qed.

Lemma layer_fold_elem_of (data : bytes) (positions : list Z) (names : gset str) (n : str) :
  n ∈ foldl (layer_step data) names positions ↔
  n ∈ names ∨ ∃ pos, pos ∈ positions ∧ n = layer_name data pos ∧ 1 < len n.
Proof.
  revert names. induction positions as [|p ps IH]; intros names; simpl.
  - split; [auto|]. intros [Hn|(pos & Hpos & _)]; [done|]. by apply elem_of_nil in Hpos.
  - rewrite IH. unfold layer_step at 1.
    destruct (bool_decide _ && _) eqn:E.
    + apply andb_prop in E as [_ E%Z.ltb_lt]. rewrite elem_of_union, elem_of_singleton.
      split.
      * intros [[Hn | ->]|(pos & Hpos & Hn)]; [auto| |].
        -- right. exists p. split; [left|done].
        -- right. exists pos. split; [by right|done].
      * intros [Hn|(pos & Hpos & -> & Hl)]; [auto|].
        apply elem_of_cons in Hpos as [->|Hpos]; [auto|].
        right. by exists pos.
    + split.
      * intros [Hn|(pos & Hpos & Hn)]; [auto|]. right. exists pos. split; [by right|done].
      * intros [Hn|(pos & Hpos & -> & Hl)]; [auto|].
        apply elem_of_cons in Hpos as [->|Hpos]; [|right; by exists pos].
        apply andb_false_iff in E as [E|E%Z.ltb_ge]; [|lia].
        apply bool_decide_eq_false in E. apply dec_stable in E.
        rewrite E in Hl. by vm_compute in Hl.
Qed.

(** [for_each] with a body that keeps an invariant and never raises on
    the elements of the list. *)
Lemma for_each_inv {X S} (I : S → Prop) (xs : list X) (body : X → S → result S) (st : S) :
  I st →
  (∀ x st, x ∈ xs → I st → ∃ st', body x st = Ok st' ∧ I st') →
  ∃ st', for_each xs body st = Ok st' ∧ I st'.
Proof.
  revert st. induction xs as [|a xs IH]; intros st Hst Hbody; simpl.
  - by exists st.
  - destruct (Hbody a st) as (st1 & -> & H1); [left|done|]. simpl.
    apply IH; [done|]. intros z st2 Hz. apply Hbody. by right.
Qed.

Lemma font_step_inv (data : bytes) (pos : Z) (fonts : gset str) :
  pos ∈ find_all data font_marker →
  (∀ f, f ∈ fonts → font_origin data f) →
  ∃ fonts', font_step data pos fonts = Ok fonts' ∧ ∀ f, f ∈ fonts' → font_origin data f.
Proof.
  intros Hpos HI.
  destruct (find_all_bound data font_marker pos) as [H0 Hb]; [done|done|].
  change (len font_marker) with 5 in Hb.
  destruct (font_walk_range data (pos - 1)) as (s & Hs & Hs0 & Hs1); [lia|].
  unfold font_step. rewrite Hs. simpl.
  eexists. split; [done|]. intros f Hf.
  case_bool_decide as Hne; [|by apply HI].
  apply elem_of_union in Hf as [Hf|Hf%elem_of_singleton]; [by apply HI|]. subst f.
  split; [done|]. exists pos, (s + 1). split; [done|]. split; [|done].
  destruct (decide (pos = 0)) as [->|?].
  - rewrite Hs0 in Hne by lia. simpl in Hne. by rewrite slice_empty in Hne.
  - destruct (decide (pos - 1 ≤ 0)); [rewrite Hs0 by done; lia|].
    specialize (Hs1 ltac:(lia)). lia.
Qed.

Lemma extract_fonts_ok (data : bytes) :
  ∃ fs, extract_fonts data = Ok fs ∧ NoDup fs ∧ StronglySorted str_le fs ∧
        ∀ f, f ∈ fs → font_origin data f.
Proof.
  unfold extract_fonts.
  destruct (for_each_inv (λ fonts : gset str, ∀ f, f ∈ fonts → font_origin data f)
              (find_all data font_marker) (font_step data) ∅) as (fonts & -> & HI).
  - intros f Hf. by apply not_elem_of_empty in Hf.
  - intros pos fonts Hpos Hinv. by apply font_step_inv.
  - simpl. eexists. split; [done|]. split; [|split].
    + apply sorted_NoDup, NoDup_elements.
    + apply sorted_str_sorted.
    + intros f Hf%sorted_elem_of%elem_of_elements. by apply HI.
Qed.

(** C7. Every layer name returned has more than one character, every
    font name returned is non-empty, and both lists are free of
    duplicates and sorted lexicographically. *)
Theorem names_invariant (data : bytes) :
  (Forall (λ n, 1 < len n) (extract_layers data) ∧
   NoDup (extract_layers data) ∧
   StronglySorted str_le (extract_layers data)) ∧
  ∃ fs, extract_fonts data = Ok fs ∧
        Forall (λ f, 0 < len f) fs ∧ NoDup fs ∧ StronglySorted str_le fs.
Proof.
  split.
  - unfold extract_layers. split; [|split].
    + apply Forall_forall. intros n Hn%sorted_elem_of%elem_of_elements.
      apply layer_fold_elem_of in Hn as [Hn|(pos & _ & _ & Hl)]; [|done].
      by apply not_elem_of_empty in Hn.
    + apply sorted_NoDup, NoDup_elements.
    + apply sorted_str_sorted.
  - destruct (extract_fonts_ok data) as (fs & E & Hnd & Hs & Ho).
    exists fs. split; [done|]. split; [|done].
    apply Forall_forall. intros f Hf. destruct (Ho f Hf) as [Hne _].
    destruct f; [done|]. unfold len. simpl. lia.
Qed.

(** C9. The backward walks stop at index 0 without taking its byte: from
    an occurrence at [pos >= 1] the walk ends at some [start >= 0], so
    the candidate [data[start+1:pos]] starts at index 1 or later; at
    [pos = 0] the candidate is empty. Hence every extracted layer or
    font name is decoded from a slice that starts at index 1 or later,
    also on a buffer whose first byte is an allowed character. *)
Theorem first_byte_never_extracted (data : bytes) :
  (∀ pos, 0 < pos → 0 ≤ layer_walk data (pos - 1) < pos) ∧
  (∀ pos, 0 < pos < len data + 1 →
     ∃ start, font_walk data (pos - 1) = Ok start ∧ 0 ≤ start < pos) ∧
  (slice data (layer_walk data (0 - 1) + 1) 0 = [] ∧ font_walk data (0 - 1) = Ok (-1)) ∧
  (∀ n, n ∈ extract_layers data →
     ∃ pos a, pos ∈ find_all data layer_marker ∧ 1 ≤ a ≤ pos ∧
              n = strip (decode_ascii_ignore (slice data a pos))) ∧
  (∃ fs, extract_fonts data = Ok fs ∧
     ∀ f, f ∈ fs →
       ∃ pos a, pos ∈ find_all data font_marker ∧ 1 ≤ a ≤ pos ∧
                f = decode_ascii_ignore (slice data a pos)) ∧
  extract_layers (b "MyLayer1CgaT") = [u "yLayer"] ∧
  extract_fonts (b "Arial+ymaF") = Ok [u "rial"].
Proof.
  split; [|split; [|split; [|split; [|split; [|split]]]]].
  - intros pos Hpos. destruct (layer_walk_range data (pos - 1)) as [H0 H1].
    destruct (decide (pos - 1 ≤ 0)); [rewrite H0 by done; lia|].
    specialize (H1 ltac:(lia)). lia.
  - intros pos Hpos.
    destruct (font_walk_range data (pos - 1)) as (s & Hs & H0 & H1); [lia|].
    exists s. split; [done|].
    destruct (decide (pos - 1 ≤ 0)); [rewrite H0 by done; lia|].
    specialize (H1 ltac:(lia)). lia.
  - split.
    + destruct (layer_walk_range data (0 - 1)) as [H0 _].
      rewrite H0 by lia. by apply slice_empty.
    + by simp font_walk.
  - intros n Hn. unfold extract_layers in Hn.
    apply sorted_elem_of, elem_of_elements, layer_fold_elem_of in Hn
      as [Hn|(pos & Hpos & -> & Hl)]; [by apply not_elem_of_empty in Hn|].
    destruct (find_all_bound data layer_marker pos) as [H0 _]; [done|done|].
    destruct (layer_name_origin data pos H0 Hl) as (a & Ha & E).
    by exists pos, a.
  - destruct (extract_fonts_ok data) as (fs & E & _ & _ & Ho).
    exists fs. split; [done|]. intros f Hf. by destruct (Ho f Hf) as [_ ?].
  - vm_compute. reflexivity.
  - vm_compute. reflexivity.
Qed.

(** C2. On the buffer [MyLayer1CgaT] the walk stops at index 0 without
    taking the byte [M]: the list holds [yLayer] and not [MyLayer]. *)
Theorem extract_layers_MyLayer :
  find_all (b "MyLayer1CgaT") layer_marker = [7] ∧
  layer_walk (b "MyLayer1CgaT") (7 - 1) = 0 ∧
  extract_layers (b "MyLayer1CgaT") = [u "yLayer"] ∧
  u "MyLayer" ∉ extract_layers (b "MyLayer1CgaT").
Proof.
  split; [reflexivity|]. split; [reflexivity|].
  assert (E : extract_layers (b "MyLayer1CgaT") = [u "yLayer"]) by (vm_compute; reflexivity).
  split; [done|]. rewrite E. intros H%list_elem_of_singleton. discriminate H.
Qed.

(** ** Text content *)

Lemma for_each_pure {X S} (f : S → X → S) (xs : list X) (body : X → S → result S) (st : S) :
  (∀ x st, body x st = Ok (f st x)) → for_each xs body st = Ok (foldl f st xs).
Proof.
  intros Hbody. revert st. induction xs as [|a xs IH]; intros st; simpl; [done|].
  rewrite Hbody. simpl. apply IH.
Qed.

Lemma strip_nil_inv (s : str) : strip s ≠ [] → s ≠ [].
Proof. intros H ->. by apply H. Qed.


Lemma nonempty_len {A} (l : list A) : (0 <? len l) = bool_decide (l ≠ []).
Proof. by destruct l. Qed.

Lemma text_try_kept (ul : str → str) (data : bytes) (pos : Z) (texts : gset str) :
  match text_try ul data pos texts with
  | Ok texts' =>
    texts' = match text_kept ul data pos with Some t => texts ∪ {[t]} | None => texts end
  | Raise _ => text_kept ul data pos = None
  end.
Proof.
  unfold text_try, text_kept, text_at, denied.
  destruct (unpack_I _) as [length|e]; simpl; [|done].
  destruct ((0 <? length) && (length <? 500)); simpl; [|done].
  set (text := rstrip_nul _). rewrite nonempty_len.
  destruct (bool_decide (strip text ≠ [])) eqn:E.
  - apply bool_decide_eq_true in E.
    rewrite (bool_decide_eq_true_2 (text ≠ [])) by by apply strip_nil_inv.
    simpl. by destruct (negb _).
  - simpl. by rewrite andb_false_r.
Qed.

Lemma text_step_kept (ul : str → str) (data : bytes) (pos : Z) (texts : gset str) :
  text_step ul data pos texts =
  Ok (match text_kept ul data pos with Some t => texts ∪ {[t]} | None => texts end).
Proof.
  unfold text_step, try_except_pass.
  pose proof (text_try_kept ul data pos texts) as H.
  destruct (text_try ul data pos texts); [by subst|by rewrite H].
Qed.

Lemma text_fold_elem_of (ul : str → str) (data : bytes) (positions : list Z) (texts : gset str) (t : str) :
  t ∈ foldl (λ texts pos,
               match text_kept ul data pos with Some t => texts ∪ {[t]} | None => texts end)
            texts positions ↔
  t ∈ texts ∨ ∃ pos, pos ∈ positions ∧ text_kept ul data pos = Some t.
Proof.
  revert texts. induction positions as [|p ps IH]; intros texts; simpl.
  - split; [auto|]. intros [Hn|(pos & Hpos & _)]; [done|]. by apply elem_of_nil in Hpos.
  - rewrite IH. split.
    + intros [Ht|(pos & Hpos & Hk)].
      * destruct (text_kept ul data p) as [t'|] eqn:E; [|auto].
        apply elem_of_union in Ht as [Ht|Ht%elem_of_singleton]; [auto|]. subst t'.
        right. exists p. split; [left|done].
      * right. exists pos. split; [by right|done].
    + intros [Ht|(pos & Hpos & Hk)].
      * left. destruct (text_kept ul data p); [|done]. apply elem_of_union. auto.
      * apply elem_of_cons in Hpos as [->|Hpos]; [|right; by exists pos].
        left. rewrite Hk. apply elem_of_union. right. by apply elem_of_singleton.
Qed.

Lemma extract_text_ok (ul : str → str) (data : bytes) :
  ∃ ts, extract_text ul data = Ok ts ∧ NoDup ts ∧ StronglySorted str_le ts ∧
        ∀ t, t ∈ ts ↔ ∃ pos, pos ∈ find_all data text_marker ∧ text_kept ul data pos = Some t.
Proof.
  unfold extract_text.
  erewrite for_each_pure by apply text_step_kept. simpl.
  eexists. split; [done|]. split; [|split].
  - apply sorted_NoDup, NoDup_elements.
  - apply sorted_str_sorted.
  - intros t. rewrite sorted_elem_of, elem_of_elements, text_fold_elem_of.
    split; [|auto]. intros [Ht|Ht]; [|done]. by apply not_elem_of_empty in Ht.
Qed.

(** ** Bounding boxes *)

#[global] Instance box_key_inj : Inj (=) (=) box_key.
Proof. intros [] [] [=]. by subst. Qed.

Lemma round_finite_coords (x1 x2 : spec_float) (w : Z) :
  round (fsub x2 x1) = Ok w → ∃ rx, round x1 = Ok rx.
Proof.
  destruct x1 as [s1|s1| |s1 m1 e1]; simpl; eauto; intros H; exfalso;
    destruct x2 as [s2|s2| |s2 m2 e2]; try destruct s1; try destruct s2;
    unfold fsub in H; simpl in H; discriminate.
Qed.

Lemma bounds_step_next (data : bytes) (pos : Z) (st : list box * gset (Z * Z * Z * Z)) :
  bounds_step data pos st = Ok (bounds_next data st pos).
Proof.
  unfold bounds_step, bounds_next, bounds_try, box_kept, try_except_pass.
  destruct st as [bounds seen].
  destruct (unpack_4d _) as [[[[x1 y1] x2] y2]|e]; simpl; [|done].
  destruct (round (fsub x2 x1)) as [w|e] eqn:Ew; simpl; [|done].
  destruct (round (fsub y2 y1)) as [h|e] eqn:Eh; simpl; [|done].
  destruct (round_finite_coords _ _ _ Ew) as [rx ->].
  destruct (round_finite_coords _ _ _ Eh) as [ry ->].
  destruct ((0 <? w) && (w <? 10000) && (0 <? h) && (h <? 10000)); simpl; [|done].
  change (box_key (Box w h rx ry)) with (w, h, rx, ry).
  by destruct (bool_decide _).
Qed.

Lemma box_kept_valid (data : bytes) (pos : Z) (r : box) :
  box_kept data pos = Some r →
  (0 < width r < 10000 ∧ 0 < height r < 10000) ∧
  ∃ x1 y1 x2 y2,
    unpack_4d (slice data (pos + 4) (pos + 36)) = Ok (x1, y1, x2, y2) ∧
    round (fsub x2 x1) = Ok (width r) ∧ round (fsub y2 y1) = Ok (height r) ∧
    round x1 = Ok (x r) ∧ round y1 = Ok (y r).
Proof.
  unfold box_kept.
  destruct (unpack_4d _) as [[[[x1 y1] x2] y2]|e]; [|done].
  destruct (round (fsub x2 x1)) as [w|e] eqn:Ew; [|done].
  destruct (round (fsub y2 y1)) as [h|e] eqn:Eh; [|done].
  destruct (round x1) as [rx|e] eqn:Ex; [|done].
  destruct (round y1) as [ry|e] eqn:Ey; [|done].
  destruct (_ && _) eqn:E; [|done]. intros [= <-]. simpl.
  apply andb_prop in E as [[[?%Z.ltb_lt ?%Z.ltb_lt]%andb_prop ?%Z.ltb_lt]%andb_prop ?%Z.ltb_lt].
  split; [lia|]. by exists x1, y1, x2, y2.
Qed.

(** The loop keeps [seen] equal to the keys of [bounds], keeps the keys
    distinct, and collects exactly the boxes its occurrences yield. *)
Lemma bounds_fold_inv (data : bytes) (positions : list Z)
    (st : list box * gset (Z * Z * Z * Z)) :
  (∀ k, k ∈ st.2 ↔ k ∈ box_key <$> st.1) → NoDup (box_key <$> st.1) →
  let st' := foldl (bounds_next data) st positions in
  (∀ k, k ∈ st'.2 ↔ k ∈ box_key <$> st'.1) ∧ NoDup (box_key <$> st'.1) ∧
  ∀ r, r ∈ st'.1 ↔ r ∈ st.1 ∨ ∃ pos, pos ∈ positions ∧ box_kept data pos = Some r.
Proof.
  revert st. induction positions as [|p ps IH]; intros st Hseen Hnd; simpl.
  - split; [done|]. split; [done|]. intros r. split; [auto|].
    intros [Hr|(pos & Hpos & _)]; [done|]. by apply elem_of_nil in Hpos.
  - assert (Hnext : (∀ k, k ∈ (bounds_next data st p).2 ↔
                          k ∈ box_key <$> (bounds_next data st p).1) ∧
                    NoDup (box_key <$> (bounds_next data st p).1) ∧
                    ∀ r, r ∈ (bounds_next data st p).1 ↔
                         r ∈ st.1 ∨ box_kept data p = Some r).
    { unfold bounds_next. destruct (box_kept data p) as [r0|] eqn:E.
      - case_bool_decide as Hk; simpl.
        + split; [|split].
          * intros k. rewrite fmap_app, elem_of_app, elem_of_union, Hseen. simpl.
            by rewrite elem_of_singleton, list_elem_of_singleton.
          * rewrite fmap_app. apply NoDup_app. split; [done|]. split.
            -- intros k Hk1 ->%list_elem_of_singleton. by apply Hk, Hseen.
            -- apply NoDup_singleton.
          * intros r. rewrite elem_of_app, list_elem_of_singleton.
            split; intros [Hr|Hr]; auto; [right; by subst|by injection Hr as <-; right].
        + split; [done|]. split; [done|]. intros r. split; [auto|].
          intros [Hr|[= <-]]; [done|].
          apply Hseen in Hk.
          apply list_elem_of_fmap in Hk as (r' & Hkey & Hr').
          by apply (inj box_key) in Hkey as ->.
      - split; [done|]. split; [done|]. intros r. split; [auto|]. by intros [Hr|Hr]. }
    destruct Hnext as (Hseen' & Hnd' & Hin').
    destruct (IH (bounds_next data st p) Hseen' Hnd') as (H1 & H2 & H3).
    split; [done|]. split; [done|]. intros r. rewrite H3, Hin'. split.
    + intros [[Hr|Hr]|(pos & Hpos & Hr)]; [auto| |].
      * right. exists p. split; [left|done].
      * right. exists pos. split; [by right|done].
    + intros [Hr|(pos & Hpos & Hr)]; [auto|].
      apply elem_of_cons in Hpos as [->|Hpos]; [auto|]. right. by exists pos.
Qed.

Lemma StronglySorted_impl {A} (R1 R2 : relation A) (l : list A) :
  (∀ a c, R1 a c → R2 a c) → StronglySorted R1 l → StronglySorted R2 l.
Proof.
  intros HR. induction 1 as [|a l Hs IH Hall]; constructor; [done|].
  eapply Forall_impl; [exact Hall|]. apply HR.
Qed.

Lemma area_geb_total (r1 r2 : box) : area_geb r1 r2 = true ∨ area_geb r2 r1 = true.
Proof. unfold area_geb. destruct (Z.leb_spec (area r2) (area r1)); [auto|right]. apply Z.leb_le. lia. Qed.

Lemma area_geb_trans (r1 r2 r3 : box) :
  area_geb r1 r2 = true → area_geb r2 r3 = true → area_geb r1 r3 = true.
Proof. unfold area_geb. rewrite !Z.leb_le. lia. Qed.

Lemma extract_bounds_ok (data : bytes) :
  ∃ bs, extract_bounds data = Ok bs ∧
        StronglySorted (λ r1 r2, area r2 ≤ area r1) bs ∧
        NoDup (box_key <$> bs) ∧
        ∀ r, r ∈ bs ↔ ∃ pos, pos ∈ find_all data bounds_marker ∧ box_kept data pos = Some r.
Proof.
  unfold extract_bounds.
  erewrite for_each_pure by (intros; apply bounds_step_next). simpl.
  destruct (bounds_fold_inv data (find_all data bounds_marker) ([], ∅)) as (_ & Hnd & Hin).
  { intros k. simpl. split; intros Hk; [by apply not_elem_of_empty in Hk|by apply elem_of_nil in Hk]. }
  { simpl. apply NoDup_nil_2. }
  eexists. split; [done|]. split; [|split].
  - eapply StronglySorted_impl; [|apply (sorted_sorted area_geb area_geb_total area_geb_trans)].
    intros r1 r2. unfold area_geb. by rewrite Z.leb_le.
  - by rewrite (sorted_perm area_geb).
  - intros r. rewrite sorted_elem_of, Hin. simpl. split; [|auto].
    intros [Hr|Hr]; [by apply elem_of_nil in Hr|done].
Qed.

(** ** Error handling of the extractors *)

Lemma Ok_inj {A} (a c : A) : Ok a = Ok c → a = c.
Proof.
  intros E. exact (f_equal (λ r, match r with Ok v => v | Raise _ => a end) E).
Qed.




(** ** The text filter *)

(** The text [ver ] with its trailing space is dropped by the token
    [ver ], although its trimmed form [ver] holds no token; the text of
    three spaces is dropped, although its trimmed form, the empty
    string, holds no token either. *)
Lemma text_filter_on_trimmed_fails :
  (¬ ∃ ul, text_filter_on_trimmed ul) ∧
  (strip (text_at (text_record 4 (b "ver ")) 0 4) = u "ver" ∧
   denied ascii_only (u "ver") = false ∧
   extract_text ascii_only (text_record 4 (b "ver ")) = Ok []) ∧
  (strip (text_at (text_record 3 (b "   ")) 0 3) = [] ∧
   denied ascii_only [] = false ∧
   extract_text ascii_only (text_record 3 (b "   ")) = Ok []).
Proof.
  split; [|split; vm_compute; done].
  intros [ul H].
  specialize (H (text_record 4 (b "ver ")) 0 4 ∅ eq_refl ltac:(lia)).
  vm_compute in H. discriminate H.
Qed.

(** C4, amended. An occurrence whose declared length is not strictly
    between 0 and 500 adds nothing. For a valid length, the decoded,
    null-stripped text adds nothing when it is empty or all whitespace,
    or when its lowercase form, taken before trimming, contains a
    denylist token; otherwise its trimmed form is added. So the payload
    [siehe seite 5] is left out and [Hello World] with declared length
    11 is in the result. *)
Theorem text_filter (ul : str → str) (data : bytes) (pos length : Z) (texts : gset str) :
  unpack_I (slice data (pos + 5) (pos + 9)) = Ok length →
  let text := text_at data pos length in
  (¬ 0 < length < 500 → text_step ul data pos texts = Ok texts) ∧
  (0 < length < 500 → strip text = [] ∨ denied ul text = true →
     text_step ul data pos texts = Ok texts) ∧
  (0 < length < 500 → strip text ≠ [] → denied ul text = false →
     text_step ul data pos texts = Ok (texts ∪ {[strip text]})) ∧
  extract_text ul (text_record 13 (b "siehe seite 5")) = Ok [] ∧
  extract_text ul (text_record 11 (b "Hello World")) = Ok [u "Hello World"].
Proof.
  intros Hlen text. rewrite text_step_kept. unfold text_kept. rewrite Hlen.
  fold text. split; [|split; [|split; [|split]]].
  - intros Hr. destruct (Z.ltb_spec 0 length), (Z.ltb_spec length 500); simpl; try done. lia.
  - intros _ [E|E].
    + rewrite (bool_decide_eq_false_2 (strip text ≠ [])) by (by intros ?).
      by rewrite andb_false_r.
    + unfold denied in E |- *. rewrite E. simpl. by rewrite andb_false_r.
  - intros [H0%Z.ltb_lt H1%Z.ltb_lt] Hne Hd. rewrite H0, H1. simpl.
    rewrite bool_decide_eq_true_2 by done. unfold denied in Hd |- *. by rewrite Hd.
  - vm_compute. reflexivity.
  - vm_compute. reflexivity.
Qed.

(** The filter at the occurrence of [Hello World]. *)
Lemma text_filter_witness :
  unpack_I (slice (text_record 11 (b "Hello World")) (0 + 5) (0 + 9)) = Ok 11 ∧
  text_step ascii_only (text_record 11 (b "Hello World")) 0 ∅ = Ok {[u "Hello World"]}.
Proof.
  split; [reflexivity|].
  destruct (text_filter ascii_only (text_record 11 (b "Hello World")) 0 11 ∅ eq_refl)
    as (_ & _ & H & _).
  rewrite H; [|lia|by vm_compute|by vm_compute].
  rewrite union_empty_l_L. reflexivity.
Defined.

(** ** The box filter and the order of the boxes *)

(** C5. Every box [extract_bounds] returns comes from an occurrence
    whose four doubles unpack, has [width = round(x2 - x1)] and
    [height = round(y2 - y1)] strictly between 0 and 10000, and no two
    boxes returned share the 4-tuple [(width, height, x, y)]. A box of
    width 15000 and a box of width 0 are dropped, and a box that occurs
    twice is returned once. *)
Theorem bounds_filter :
  (∀ data : bytes,
     ∃ bs, extract_bounds data = Ok bs ∧
       (∀ r, r ∈ bs →
          (0 < width r < 10000 ∧ 0 < height r < 10000) ∧
          ∃ pos x1 y1 x2 y2,
            pos ∈ find_all data bounds_marker ∧
            unpack_4d (slice data (pos + 4) (pos + 36)) = Ok (x1, y1, x2, y2) ∧
            round (fsub x2 x1) = Ok (width r) ∧ round (fsub y2 y1) = Ok (height r) ∧
            round x1 = Ok (x r) ∧ round y1 = Ok (y r)) ∧
       NoDup ((λ r, (width r, height r, x r, y r)) <$> bs)) ∧
  extract_bounds (box_record f64_0 f64_0 f64_15000 f64_100) = Ok [] ∧
  extract_bounds (box_record f64_10 f64_0 f64_10 f64_100) = Ok [] ∧
  extract_bounds (box_record f64_0 f64_0 f64_10 f64_100
                  ++ box_record f64_0 f64_0 f64_10 f64_100) = Ok [Box 10 100 0 0].
Proof.
  split; [|split; [vm_compute; done|split; vm_compute; done]].
  intros data. destruct (extract_bounds_ok data) as (bs & E & _ & Hnd & Hin).
  exists bs. split; [done|]. split; [|done].
  intros r (pos & Hpos & Hk)%Hin.
  destruct (box_kept_valid data pos r Hk) as (Hr & x1 & y1 & x2 & y2 & H).
  split; [done|]. by exists pos, x1, y1, x2, y2.
Qed.

Lemma slice_take {A} (l : list A) (n : Z) : 0 ≤ n → slice l 0 n = take (Z.to_nat n) l.
Proof. intros. rewrite slice_nonneg by lia. by rewrite Z.sub_0_r. Qed.

(** C6. The list [extract_bounds] returns is in descending order of
    area; boxes of areas 100, 50000 and 3000 come out as 50000, 3000,
    100. The [element_sizes] of the report are the first 30 boxes of
    that list: with more than 30 boxes there are exactly 30, and none of
    the boxes left out has a larger area than one that is kept. *)
Theorem bounds_sorted_top30 :
  (∀ data : bytes,
     ∃ bs, extract_bounds data = Ok bs ∧ StronglySorted (λ r1 r2, area r2 ≤ area r1) bs) ∧
  extract_bounds (box_record f64_0 f64_0 f64_10 f64_10
                  ++ box_record f64_0 f64_0 f64_250 f64_200
                  ++ box_record f64_0 f64_0 f64_60 f64_50)
    = Ok [Box 250 200 0 0; Box 60 50 0 0; Box 10 10 0 0] ∧
  (∀ (json : Type) (ul : str → str) (src : str) (meta : option json) (data : bytes),
     ∃ bs r, extract_bounds data = Ok bs ∧
       assemble ul src meta data = Ok r ∧
       element_sizes r = take 30 bs ∧
       ((30 < length bs)%nat →
          length (element_sizes r) = 30%nat ∧
          ∀ r1 r2, r1 ∈ element_sizes r → r2 ∈ drop 30 bs → area r2 ≤ area r1)).
Proof.
  split; [|split; [vm_compute; done|]].
  - intros data. destruct (extract_bounds_ok data) as (bs & E & Hs & _). by exists bs.
  - intros json ul src meta data.
    destruct (extract_bounds_ok data) as (bs & E & Hs & _).
    destruct (extract_text_ok ul data) as (ts & Et & _).
    destruct (extract_fonts_ok data) as (fs & Ef & _).
    exists bs. unfold assemble. rewrite Et, Ef, E. simpl.
    eexists. split; [done|]. split; [done|]. simpl.
    rewrite slice_take by lia. split; [done|].
    intros Hlen. split; [rewrite length_take; lia|].
    intros r1 r2 H1 H2. rewrite <- (take_drop 30 bs) in Hs.
    by apply (StronglySorted_app_1_elem_of _ _ _ _ _ Hs).
Qed.

(** ** Metadata and the report *)

Lemma find_absent (B M : bytes) :
  M ≠ [] → (∀ o, 0 ≤ o → ¬ occurs_at B M o) → find B M 0 = -1.
Proof.
  intros HM Hn. destruct (decide (find B M 0 = -1)) as [|Hne]; [done|].
  destruct (find_some B M 0 HM ltac:(lia) Hne) as ([H0 _] & Hocc & _).
  by destruct (Hn _ H0).
Qed.

Lemma find_present (B M : bytes) (o : Z) :
  M ≠ [] → 0 ≤ o → occurs_at B M o → find B M 0 ≠ -1.
Proof. intros HM Ho Hocc E. by apply (find_none B M 0 HM ltac:(lia) E o). Qed.

(** C8, amended. For a raw file that can be read: when the opening
    sequence does not occur, the result is [None]; when it occurs, the
    lookup takes its first occurrence and the span up to and including
    the first closing double brace at or after it, and returns the
    object [json.loads] parses from that span, or [None] when
    [json.loads] raises on it, as it does when the first double brace
    closes an inner object. In every case [extract_metadata] returns
    without raising. *)
Theorem metadata_lookup {json : Type} (json_loads : bytes → result json)
    (read_bytes : str → result bytes) (af_path : str) (raw : bytes) :
  read_bytes af_path = Ok raw →
  let start := find raw document_prefix 0 in
  let close := find raw (b "}}") start in
  let span := slice raw start (close + 2) in
  ((∀ o, 0 ≤ o → ¬ occurs_at raw document_prefix o) →
     extract_metadata json_loads read_bytes af_path = Ok None) ∧
  ((∃ o, 0 ≤ o ∧ occurs_at raw document_prefix o) →
     (0 ≤ start ∧ occurs_at raw document_prefix start ∧
      ∀ o, 0 ≤ o < start → ¬ occurs_at raw document_prefix o) ∧
     (close ≠ -1 →
        start ≤ close ∧ occurs_at raw (b "}}") close ∧
        ∀ o, start ≤ o < close → ¬ occurs_at raw (b "}}") o) ∧
     (∀ v, json_loads span = Ok v →
        extract_metadata json_loads read_bytes af_path = Ok (Some v)) ∧
     (∀ e, json_loads span = Raise e →
        extract_metadata json_loads read_bytes af_path = Ok None)) ∧
  (∃ m, extract_metadata json_loads read_bytes af_path = Ok m).
Proof.
  intros Hraw start close span. unfold extract_metadata. rewrite Hraw. simpl.
  fold start. fold close. fold span.
  split; [|split].
  - intros Hn. subst start. by rewrite (find_absent raw document_prefix) by done.
  - intros (o & Ho & Hocc).
    pose proof (find_present raw document_prefix o ltac:(done) Ho Hocc) as Hne.
    fold start in Hne.
    destruct (find_some raw document_prefix 0 ltac:(done) ltac:(lia) Hne)
      as ([H0 _] & Hs & Hfirst). fold start in H0, Hs, Hfirst.
    split; [done|]. split; [|split].
    + intros Hc. destruct (find_some raw (b "}}") start ltac:(done) H0 Hc)
        as ([H1 _] & Hc1 & Hc2). done.
    + intros v Hv. rewrite Hv. by destruct (Z.eqb_spec start (-1)).
    + intros e He. rewrite He. by destruct (Z.eqb_spec start (-1)).
  - destruct (negb _); [|by eexists]. destruct (json_loads span); by eexists.
Qed.

(** The lookup on [sample_raw]: the blob is found after the first four
    bytes and handed to [sample_json_loads]. *)
Lemma metadata_lookup_witness :
  (λ _ : str, Ok sample_raw) (u "doc.af") = Ok sample_raw ∧
  extract_metadata sample_json_loads (λ _, Ok sample_raw) (u "doc.af")
    = Ok (Some sample_document).
Proof.
  split; [reflexivity|].
  destruct (metadata_lookup sample_json_loads (λ _, Ok sample_raw) (u "doc.af")
              sample_raw eq_refl) as (_ & H & _).
  destruct H as (_ & _ & H & _).
  - exists 4. split; [lia|]. by vm_compute.
  - apply H. by vm_compute.
Defined.

(** On [nested_raw] the opening sequence is followed by a closing
    double brace, the last two of the three braces, that encloses valid
    JSON; the lookup cuts at the first double brace instead, hands the
    parser a span that lacks a brace, and returns [None]. *)
Lemma metadata_nested_object_fails :
  occurs_at nested_raw document_prefix 4 ∧
  occurs_at nested_raw (b "}}") 28 ∧
  slice nested_raw 4 (28 + 2) = nested_document ∧
  nested_json_loads nested_document = Ok nested_document ∧
  find nested_raw (b "}}") (find nested_raw document_prefix 0) = 27 ∧
  nested_json_loads (slice nested_raw 4 (27 + 2)) = Raise JSONDecodeError ∧
  extract_metadata nested_json_loads (λ _, Ok nested_raw) (u "doc.af") = Ok None ∧
  ¬ metadata_any_closing nested_json_loads (λ _, Ok nested_raw).
Proof.
  assert (H1 : occurs_at nested_raw document_prefix 4) by (by vm_compute).
  assert (H2 : occurs_at nested_raw (b "}}") 28) by (by vm_compute).
  assert (H3 : nested_json_loads (slice nested_raw 4 (28 + 2)) = Ok nested_document)
    by (by vm_compute).
  assert (H4 : extract_metadata nested_json_loads (λ _, Ok nested_raw) (u "doc.af") = Ok None)
    by (by vm_compute).
  repeat split; try done; try (by vm_compute).
  intros Hclaim.
  specialize (Hclaim (u "doc.af") nested_raw 4 28 nested_document eq_refl ltac:(lia) H1 H2 H3).
  rewrite H4 in Hclaim. discriminate Hclaim.
Qed.

Lemma assemble_ok {json : Type} (ul : str → str) (src : str) (meta : option json)
    (data : bytes) :
  ∃ r, assemble ul src meta data = Ok r ∧ source r = src ∧ metadata r = meta.
Proof.
  destruct (extract_bounds_ok data) as (bs & E & _).
  destruct (extract_text_ok ul data) as (ts & Et & _).
  destruct (extract_fonts_ok data) as (fs & Ef & _).
  unfold assemble. rewrite Et, Ef, E. simpl. by eexists.
Qed.

Lemma argv_get_lookup (argv : list str) (i : nat) (a : str) :
  argv !! i = Some a → argv_get argv i = Ok a ∧ Z.of_nat i < len argv.
Proof.
  intros H. unfold argv_get. rewrite H. split; [done|].
  apply lookup_lt_Some in H. unfold len. lia.
Qed.

(** C10. With [--from-bin] as first argument [main] does not look for
    metadata: whenever it produces a report, the report's [metadata] is
    [None]; its outcome is the same whatever [json.loads], the existence
    test and the decompression would answer; and it does produce a
    report as soon as the binary named by the second argument can be
    read, whatever that binary holds. *)
Theorem from_bin_no_metadata {json : Type}
    (json_loads : bytes → result json) (ul : str → str)
    (read_bytes : str → result bytes) (path_exists : str → bool)
    (path_str : str → str) (extract_zstd_data : str → result (option bytes))
    (argv : list str) :
  argv !! 1%nat = Some (u "--from-bin") →
  (∀ r out,
     main json_loads ul read_bytes path_exists path_str extract_zstd_data argv = Ok (r, out) →
     metadata r = None) ∧
  (∀ json_loads' path_exists' extract_zstd_data',
     main json_loads' ul read_bytes path_exists' path_str extract_zstd_data' argv =
     main json_loads ul read_bytes path_exists path_str extract_zstd_data argv) ∧
  (∀ bin data,
     argv !! 2%nat = Some bin → read_bytes bin = Ok data →
     ∃ r, main json_loads ul read_bytes path_exists path_str extract_zstd_data argv
            = Ok (r, argv_opt argv 3) ∧
          metadata r = None ∧ source r = path_str bin).
Proof.
  intros H1. destruct (argv_get_lookup argv 1 _ H1) as [E1 L1].
  assert (Hmain : ∀ (jl : bytes → result json) pe ez,
            main jl ul read_bytes pe path_str ez argv =
            if len argv <? 3 then Raise (SystemExit 1)
            else bin_path ← argv_get argv 2;
                 data ← read_bytes bin_path;
                 r ← assemble ul (path_str bin_path) None data;
                 Ok (r, argv_opt argv 3)).
  { intros jl pe ez. unfold main. destruct (Z.ltb_spec (len argv) 2); [simpl in L1; lia|].
    rewrite E1. simpl. by rewrite ?bool_decide_eq_true_2. }
  split; [|split].
  - intros r out. rewrite Hmain.
    destruct (len argv <? 3); [done|].
    destruct (argv_get argv 2) as [bin|]; simpl; [|done].
    destruct (read_bytes bin) as [data|]; simpl; [|done].
    destruct (assemble_ok ul (path_str bin) (@None json) data) as (r' & -> & _ & Hm).
    simpl. by intros [= <- _].
  - intros jl pe ez. by rewrite !Hmain.
  - intros bin data H2 Hread. destruct (argv_get_lookup argv 2 _ H2) as [E2 L2].
    rewrite Hmain. destruct (Z.ltb_spec (len argv) 3); [simpl in L2; lia|].
    rewrite E2. simpl. rewrite Hread. simpl.
    destruct (assemble_ok ul (path_str bin) (@None json) data) as (r & -> & Hs & Hm).
    simpl. by exists r.
Qed.

(** A run on a binary that holds a metadata blob: the report's
    [metadata] is [None] all the same. *)
Lemma from_bin_no_metadata_witness :
  [u "extract_affinity.py"; u "--from-bin"; u "doc.bin"] !! 1%nat = Some (u "--from-bin") ∧
  ∃ r, main sample_json_loads ascii_only (λ _, Ok sample_raw) (λ _, true) (λ p, p)
         (λ _, Ok None) [u "extract_affinity.py"; u "--from-bin"; u "doc.bin"]
       = Ok (r, None) ∧ metadata r = None.
Proof.
  split; [reflexivity|].
  destruct (from_bin_no_metadata sample_json_loads ascii_only (λ _, Ok sample_raw)
              (λ _, true) (λ p, p) (λ _, Ok None)
              [u "extract_affinity.py"; u "--from-bin"; u "doc.bin"] eq_refl)
    as (_ & _ & H).
  destruct (H (u "doc.bin") sample_raw eq_refl eq_refl) as (r & E & Hm & _).
  exists r. split; [exact E|exact Hm].
Defined.

(** ** Sample runs *)

Example find_all_overlap : find_all (b "aaaa") (b "aa") = [0; 1; 2].
Proof. reflexivity. Qed.

Example find_all_absent : find_all (b "MyLayer") layer_marker = [].
Proof. reflexivity. Qed.

Example layers_dedup_sorted :
  extract_layers (b "#zeta  1CgaT#Alpha1CgaT#A1CgaT#zeta1CgaT") = [u "Alpha"; u "zeta"].
Proof. vm_compute. reflexivity. Qed.

(** Bytes that are not UTF-8 do not fail the occurrence: they are left
    out of the decoded text. *)
Example text_invalid_bytes_dropped :
  extract_text ascii_only (text_record 3 (b "Hi" ++ [xff])) = Ok [u "Hi"].
Proof. vm_compute. reflexivity. Qed.

(** A declared length that runs past the end of the buffer reads what
    is there. *)
Example text_length_past_end :
  extract_text ascii_only (text_record 400 (b "Hello")) = Ok [u "Hello"].
Proof. vm_compute. reflexivity. Qed.

Example fonts_sample :
  extract_fonts (b "#Open-Sans+ymaF Arial+ymaF#Arial+ymaF") = Ok [u "Arial"; u "Open-Sans"].
Proof. vm_compute. reflexivity. Qed.

(** * Further properties *)

(** ** The scanner at its edges *)

Lemma find_empty_pattern (data : bytes) (pos : Z) :
  0 ≤ pos → find data [] pos = if len data <? pos then -1 else pos.
Proof.
  intros Hpos. unfold find. destruct (Z.ltb_spec pos 0); [lia|].
  destruct (len data <? pos); [done|].
  by destruct (drop (Z.to_nat pos) data).
Qed.

Lemma find_all_loop_empty (data pattern : bytes) (pos : Z) (positions : list Z) :
  pattern = [] → 0 ≤ pos →
  find_all_loop data pattern pos positions = positions ++ seqZ pos (len data + 1 - pos).
Proof.
  funelim (find_all_loop data pattern pos positions); intros -> Hpos.
  - pose proof (proj1 (Z.eqb_eq _ _) e) as E.
    rewrite find_empty_pattern in E by done.
    destruct (Z.ltb_spec (len data) pos); [|lia].
    rewrite seqZ_nil by lia. by rewrite app_nil_r.
  - pose proof (proj1 (Z.eqb_neq _ _) Hne) as E.
    rewrite find_empty_pattern in * by done.
    destruct (Z.ltb_spec (len data) pos); [done|].
    match goal with IH : _ → _ → find_all_loop _ _ _ _ = _ |- _ => rewrite IH by (done || lia) end.
    rewrite <- app_assoc. f_equal. rewrite (seqZ_cons pos) by lia. simpl.
    f_equal. f_equal; lia.
Qed.

(** X1. With the empty marker the scan ends and returns every offset of
    the buffer, from 0 up to and including its length. *)
Theorem find_all_empty_marker (B : bytes) :
  find_all B [] = seqZ 0 (len B + 1).
Proof.
  unfold find_all. rewrite find_all_loop_empty by (done || lia).
  simpl. by rewrite Z.sub_0_r.
Qed.

Lemma filter_length_le {A} (P : A → Prop) `{∀ x, Decision (P x)} (l : list A) :
  (length (filter P l) ≤ length l)%nat.
Proof.
  induction l as [|a l IH]; [done|]. rewrite filter_cons.
  case_decide; simpl; lia.
Qed.

Lemma occurs_at_bound (B M : bytes) (o : Z) :
  M ≠ [] → 0 ≤ o → occurs_at B M o → o + len M ≤ len B.
Proof.
  intros HM Ho Hocc. rewrite <- (Z2Nat.id o) in Hocc by lia.
  apply occurs_at_prefix in Hocc as [Hle Hp]; [|done].
  apply prefix_length in Hp. rewrite length_drop in Hp. unfold len. lia.
Qed.

(** X2. Every offset returned for a non-empty marker leaves room for the
    whole marker before the end of the buffer, and there are at most
    [len(B) - len(M) + 1] of them: none when the buffer is shorter than
    the marker. *)
Theorem find_all_in_bounds (B M : bytes) :
  M ≠ [] →
  (∀ o, o ∈ find_all B M → 0 ≤ o ∧ o + len M ≤ len B) ∧
  (length (find_all B M) ≤ Z.to_nat (len B + 1 - len M))%nat ∧
  (len B < len M → find_all B M = []).
Proof.
  intros HM.
  assert (Hlen : (length (find_all B M) ≤ Z.to_nat (len B + 1 - len M))%nat).
  { rewrite find_all_brute_force by done. unfold brute_force.
    pose proof (len_nonneg B). pose proof (len_nonneg M).
    destruct (Z.le_gt_cases (len M) (len B + 1)).
    - replace (len B + 1) with ((len B + 1 - len M) + len M) at 1 by lia.
      rewrite seqZ_app, filter_app by lia.
      rewrite (filter_none _ (seqZ (0 + _) _)).
      + rewrite app_nil_r. etrans; [apply filter_length_le|]. by rewrite length_seqZ.
      + intros o Ho%elem_of_seqZ Hocc.
        apply occurs_at_bound in Hocc; [|done|lia].
        destruct M; [done|]. unfold len in *. simpl in *. lia.
    - rewrite filter_none; [simpl; lia|].
      intros o Ho%elem_of_seqZ Hocc. apply occurs_at_bound in Hocc; [lia|done|lia]. }
  split; [|split; [done|]].
  - intros o Ho. by apply find_all_bound.
  - intros Hshort. destruct (find_all B M); [done|]. simpl in Hlen. lia.
Qed.

(** The bounds of the scan of [abcabc] for [bc]. *)
Lemma find_all_in_bounds_witness :
  b "bc" ≠ [] ∧ (length (find_all (b "abcabc") (b "bc")) ≤ 5)%nat.
Proof.
  split; [done|].
  apply (find_all_in_bounds (b "abcabc") (b "bc")). done.
Defined.

Lemma occurs_at_app (B B' M : bytes) (o : Z) :
  0 ≤ o → o + len M ≤ len B →
  occurs_at (B ++ B') M o ↔ occurs_at B M o.
Proof.
  intros Ho Hb. unfold occurs_at. pose proof (len_nonneg M).
  rewrite !slice_nonneg by lia.
  replace (Z.to_nat (o + len M - o)) with (length M) by (unfold len; lia).
  rewrite drop_app_le by (unfold len in *; lia).
  rewrite take_app_le; [done|]. rewrite length_drop. unfold len in *. lia.
Qed.

Lemma len_app {A} (l k : list A) : len (l ++ k) = len l + len k.
Proof. unfold len. rewrite length_app. lia. Qed.

#[local] Instance Zlt_antisymm : AntiSymm (=) Z.lt.
Proof. intros a c ??. lia. Qed.

(** X3. Bytes appended to a buffer add occurrences and take none away:
    the occurrences that fit in [B] are the same in [B] and in
    [B ++ B'], in the same order. *)
Theorem find_all_app (B B' M : bytes) :
  M ≠ [] →
  find_all B M = filter (λ o, o + len M ≤ len B) (find_all (B ++ B') M).
Proof.
  intros HM. apply (StronglySorted_unique Z.lt).
  - rewrite find_all_brute_force by done. apply StronglySorted_filter, seqZ_sorted.
  - apply StronglySorted_filter. rewrite find_all_brute_force by done.
    apply StronglySorted_filter, seqZ_sorted.
  - apply NoDup_Permutation.
    + rewrite find_all_brute_force by done. apply NoDup_filter, NoDup_seqZ.
    + apply NoDup_filter. rewrite find_all_brute_force by done.
      apply NoDup_filter, NoDup_seqZ.
    + intros o. rewrite list_elem_of_filter, !find_all_brute_force by done.
      unfold brute_force. rewrite !list_elem_of_filter, !elem_of_seqZ.
      rewrite len_app. pose proof (len_nonneg M). pose proof (len_nonneg B').
      split.
      * intros [Hocc Ho]. pose proof (occurs_at_bound B M o HM ltac:(lia) Hocc).
        split; [done|]. split; [by apply occurs_at_app; [lia|done|]|lia].
      * intros (Hb & Hocc & Ho). split; [by apply occurs_at_app in Hocc; [|lia|done]|lia].
Qed.

(** The scan of [abab] and of [abab] followed by [ab]. *)
Lemma find_all_app_witness :
  b "ab" ≠ [] ∧ find_all (b "abab") (b "ab") = [0; 2] ∧
  find_all (b "abab" ++ b "ab") (b "ab") = [0; 2; 4].
Proof.
  split; [done|].
  pose proof (find_all_app (b "abab") (b "ab") (b "ab") ltac:(done)) as H.
  split; [rewrite H|]; reflexivity.
Defined.

(** ** The backward walks and the characters of a name *)

Lemma slice_singleton {A} (data : list A) (i : Z) (a : A) :
  0 ≤ i → data !! Z.to_nat i = Some a → slice data i (i + 1) = [a].
Proof.
  intros Hi Ha. rewrite slice_nonneg by lia.
  replace (Z.to_nat (i + 1 - i)) with 1%nat by lia.
  by rewrite (drop_S _ _ _ Ha).
Qed.

Lemma elem_of_slice {A} (data : list A) (i j : Z) (a : A) :
  0 ≤ i → 0 ≤ j → a ∈ slice data i j → ∃ k, i ≤ k < j ∧ data !! Z.to_nat k = Some a.
Proof.
  intros Hi Hj. rewrite slice_nonneg by done.
  intros (n & Hn & Hlt)%elem_of_take. rewrite lookup_drop in Hn.
  exists (i + Z.of_nat n). split; [lia|].
  by replace (Z.to_nat (i + Z.of_nat n)) with (Z.to_nat i + n)%nat by lia.
Qed.

Lemma getitem_lookup (data : bytes) (i : Z) (a : byte) :
  0 ≤ i → getitem data i = Ok a → data !! Z.to_nat i = Some a.
Proof.
  intros Hi. unfold getitem. destruct (Z.ltb_spec i 0); [lia|].
  destruct (_ || _); [done|]. destruct (data !! Z.to_nat i); [|done]. by intros [= ->].
Qed.

(** The walk of [extract_layers] passes allowed bytes only and stops on
    a byte that is not allowed, unless it stops at index 0 or below. *)
Lemma layer_walk_post (data : bytes) (start : Z) :
  (∀ i, layer_walk data start < i ≤ start → layer_byte_ok (slice data i (i + 1)) = true) ∧
  (0 < layer_walk data start →
     layer_byte_ok (slice data (layer_walk data start) (layer_walk data start + 1)) = false).
Proof.
  funelim (layer_walk data start).
  - pose proof (andb_prop _ _ Hc) as [Hs%Z.ltb_lt Hok].
    match goal with IH : _ ∧ _ |- _ => destruct IH as [IHa IHb] end.
    split; [|done]. intros i Hi.
    destruct (decide (i = start)) as [->|]; [done|]. apply IHa. lia.
  - split; [intros; lia|]. intros Hs%Z.ltb_lt.
    pose proof e as E. rewrite Hs in E. done.
Qed.

(** X4. From an occurrence at [pos >= 1] the walk of [extract_layers]
    ends at an index [start] with [0 <= start < pos]; every byte
    strictly between [start] and [pos] is a letter, a digit or one of
    underscore, space, hyphen and full stop; and the walk stopped either
    at index 0 or on a byte that is none of these. *)
Theorem layer_walk_stops (data : bytes) (pos : Z) :
  0 < pos →
  let start := layer_walk data (pos - 1) in
  0 ≤ start < pos ∧
  (∀ i, start < i < pos → layer_byte_ok (slice data i (i + 1)) = true) ∧
  (start = 0 ∨ layer_byte_ok (slice data start (start + 1)) = false).
Proof.
  intros Hpos start. subst start.
  destruct (layer_walk_range data (pos - 1)) as [H0 H1].
  destruct (layer_walk_post data (pos - 1)) as [Ha Hb].
  assert (0 ≤ layer_walk data (pos - 1) < pos) as Hr.
  { destruct (decide (pos - 1 ≤ 0)); [rewrite H0 by done; lia|].
    specialize (H1 ltac:(lia)). lia. }
  split; [done|]. split.
  - intros i Hi. apply Ha. lia.
  - destruct (decide (layer_walk data (pos - 1) = 0)); [auto|]. right. apply Hb. lia.
Qed.

(** The walk from the marker of [ab.cd#My Layer1CgaT]. *)
Lemma layer_walk_stops_witness :
  0 < 14 ∧ layer_walk (b "ab.cd#My Layer1CgaT") (14 - 1) = 5 ∧
  layer_byte_ok (slice (b "ab.cd#My Layer1CgaT") 5 (5 + 1)) = false.
Proof.
  split; [lia|]. split; [reflexivity|].
  destruct (layer_walk_stops (b "ab.cd#My Layer1CgaT") 14 ltac:(lia)) as (_ & _ & [H|H]).
  - discriminate H.
  - exact H.
Defined.

Lemma lstrip_while_split (f : N → bool) (s : str) :
  ∃ k, s = k ++ lstrip_while f s ∧ Forall (λ c, f c = true) k ∧
       ∀ c, head (lstrip_while f s) = Some c → f c = false.
Proof.
  induction s as [|c s (k & Hk & Hall & Hh)]; simpl.
  - exists []. split; [done|]. split; [constructor|done].
  - destruct (f c) eqn:E.
    + exists (c :: k). split; [by rewrite Hk at 1|]. split; [by constructor|done].
    + exists []. split; [done|]. split; [constructor|]. simpl. by intros ? [= <-].
Qed.

Lemma rstrip_while_split (f : N → bool) (s : str) :
  ∃ k, s = rstrip_while f s ++ k ∧ Forall (λ c, f c = true) k ∧
       ∀ c, last (rstrip_while f s) = Some c → f c = false.
Proof.
  unfold rstrip_while.
  destruct (lstrip_while_split f (reverse s)) as (k & Hk & Hall & Hh).
  exists (reverse k). split; [|split].
  - rewrite <- reverse_app, <- Hk. by rewrite reverse_involutive.
  - by apply Forall_reverse.
  - intros c. rewrite last_reverse. apply Hh.
Qed.

Lemma elem_of_strip (s : str) (c : N) : c ∈ strip s → c ∈ s.
Proof.
  unfold strip. intros Hc.
  destruct (lstrip_while_split isspace s) as (k1 & H1 & _).
  destruct (rstrip_while_split isspace (lstrip_while isspace s)) as (k2 & H2 & _).
  rewrite H1, H2. rewrite !elem_of_app. auto.
Qed.

Lemma strip_length (s : str) : (length (strip s) ≤ length s)%nat.
Proof.
  unfold strip.
  destruct (lstrip_while_split isspace s) as (k1 & H1 & _).
  destruct (rstrip_while_split isspace (lstrip_while isspace s)) as (k2 & H2 & _).
  rewrite H1 at 2. rewrite H2 at 2. rewrite !length_app. lia.
Qed.

(** A trimmed string neither begins nor ends with whitespace. *)
Lemma strip_ends (s : str) (c : N) :
  (head (strip s) = Some c → isspace c = false) ∧
  (last (strip s) = Some c → isspace c = false).
Proof.
  unfold strip.
  destruct (lstrip_while_split isspace s) as (k1 & H1 & _ & Hh).
  destruct (rstrip_while_split isspace (lstrip_while isspace s)) as (k2 & H2 & _ & Hl).
  split; [|apply Hl]. intros Hc. apply Hh.
  rewrite H2. apply head_Some in Hc as [l' ->]. done.
Qed.

Lemma elem_of_decode_ascii_ignore (bs : bytes) (c : N) :
  c ∈ decode_ascii_ignore bs ↔ ∃ a, a ∈ bs ∧ (Byte.to_N a < 128)%N ∧ c = Byte.to_N a.
Proof.
  unfold decode_ascii_ignore. rewrite list_elem_of_fmap. split.
  - intros (a & -> & [Hlt Ha]%list_elem_of_filter). by exists a.
  - intros (a & Ha & Hlt & ->). exists a. split; [done|]. by apply list_elem_of_filter.
Qed.

Lemma layer_byte_ok_char (a : byte) :
  layer_byte_ok [a] = true → layer_char (Byte.to_N a) = true.
Proof. destruct a; vm_compute; done. Qed.

Lemma font_byte_ok_char (a : byte) :
  font_byte_ok a = true → (Byte.to_N a < 128)%N → font_char (Byte.to_N a) = true.
Proof. destruct a; vm_compute; done. Qed.

(** X5. Every character of every layer name returned is an ASCII letter
    or digit or one of underscore, space, hyphen and full stop, and no
    name begins or ends with whitespace. *)
Theorem layer_names_charset (data : bytes) (n : str) :
  n ∈ extract_layers data →
  Forall (λ c, layer_char c = true) n ∧
  (∀ c, head n = Some c → isspace c = false) ∧
  (∀ c, last n = Some c → isspace c = false).
Proof.
  unfold extract_layers. intros Hn%sorted_elem_of%elem_of_elements.
  apply layer_fold_elem_of in Hn as [Hn|(pos & Hpos & -> & Hl)];
    [by apply not_elem_of_empty in Hn|].
  unfold layer_name in *. set (start := layer_walk data (pos - 1)) in *.
  destruct (find_all_bound data layer_marker pos) as [H0 _]; [done|done|].
  split; [|split; intros c; apply strip_ends].
  destruct (decide (pos = 0)) as [->|Hne].
  { exfalso. subst start. destruct (layer_walk_range data (0 - 1)) as [Hw _].
    rewrite Hw in Hl by lia. simpl in Hl. rewrite slice_empty in Hl by lia.
    by vm_compute in Hl. }
  destruct (layer_walk_range data (pos - 1)) as [Hw0 Hw1].
  destruct (layer_walk_post data (pos - 1)) as [Ha _]. fold start in Ha, Hw0, Hw1.
  assert (0 ≤ start) as Hs.
  { destruct (decide (pos - 1 ≤ 0)); [rewrite Hw0 by done; lia|].
    specialize (Hw1 ltac:(lia)). lia. }
  apply Forall_forall. intros c Hc%elem_of_strip.
  apply elem_of_decode_ascii_ignore in Hc as (a & Ha' & _ & ->).
  apply elem_of_slice in Ha' as (k & Hk & Hlk); [|lia|lia].
  apply layer_byte_ok_char. rewrite <- (slice_singleton data k a) by (done || lia).
  apply Ha. lia.
Qed.

(** The names of [#My Layer  1CgaT]. *)
Lemma layer_names_charset_witness :
  u "My Layer" ∈ extract_layers (b "#My Layer  1CgaT") ∧
  Forall (λ c, layer_char c = true) (u "My Layer").
Proof.
  assert (H : u "My Layer" ∈ extract_layers (b "#My Layer  1CgaT")).
  { by vm_compute; left. }
  split; [exact H|].
  apply (layer_names_charset (b "#My Layer  1CgaT") (u "My Layer") H).
Defined.

(** The walk of [extract_fonts] passes allowed bytes only and stops on a
    byte that is not allowed, unless it stops at index 0 or below. *)
Lemma font_walk_post (data : bytes) (start s : Z) :
  font_walk data start = Ok s →
  (∀ i, s < i ≤ start → ∃ a, data !! Z.to_nat i = Some a ∧ font_byte_ok a = true) ∧
  (0 < s → ∃ a, data !! Z.to_nat s = Some a ∧ font_byte_ok a = false).
Proof.
  funelim (font_walk data start); intros Hw.
  - apply Ok_inj in Hw as <-. pose proof (proj1 (Z.ltb_ge _ _) e).
    split; intros; lia.
  - done.
  - pose proof (proj1 (Z.ltb_lt _ _) Hs).
    match goal with IH : ∀ s, _ → _ ∧ _ |- _ => destruct (IH _ Hw) as [IHa IHb] end.
    split; [|done]. intros i Hi.
    destruct (decide (i = start)) as [->|]; [|apply IHa; lia].
    exists x0. split; [|done]. by apply getitem_lookup; [lia|].
  - apply Ok_inj in Hw as <-. pose proof (proj1 (Z.ltb_lt _ _) Hs).
    split; [intros; lia|]. intros _. exists x0. split; [|done].
    by apply getitem_lookup; [lia|].
Qed.

(** X6. From an occurrence at [pos] with [1 <= pos <= len(data)] the
    walk of [extract_fonts] indexes inside the buffer and ends at an
    index [start] with [0 <= start < pos]; every byte strictly between
    [start] and [pos] passes [isalnum] or is a hyphen or an underscore;
    and the walk stopped either at index 0 or on a byte that does not. *)
Theorem font_walk_stops (data : bytes) (pos : Z) :
  0 < pos ≤ len data →
  ∃ start, font_walk data (pos - 1) = Ok start ∧
    0 ≤ start < pos ∧
    (∀ i, start < i < pos → ∃ a, data !! Z.to_nat i = Some a ∧ font_byte_ok a = true) ∧
    (start = 0 ∨ ∃ a, data !! Z.to_nat start = Some a ∧ font_byte_ok a = false).
Proof.
  intros Hpos.
  destruct (font_walk_range data (pos - 1)) as (s & Hs & H0 & H1); [lia|].
  destruct (font_walk_post data (pos - 1) s Hs) as [Ha Hb].
  exists s. split; [done|].
  assert (0 ≤ s < pos) as Hr.
  { destruct (decide (pos - 1 ≤ 0)); [rewrite H0 by done; lia|].
    specialize (H1 ltac:(lia)). lia. }
  split; [done|]. split.
  - intros i Hi. apply Ha. lia.
  - destruct (decide (s = 0)); [auto|]. right. apply Hb. lia.
Qed.

(** The walk from the marker of [x/Open-Sans+ymaF]. *)
Lemma font_walk_stops_witness :
  0 < 11 ≤ len (b "x/Open-Sans+ymaF") ∧
  font_walk (b "x/Open-Sans+ymaF") (11 - 1) = Ok 1.
Proof.
  assert (H : 0 < 11 ≤ len (b "x/Open-Sans+ymaF")) by (split; [lia|vm_compute; discriminate]).
  split; [exact H|].
  destruct (font_walk_stops (b "x/Open-Sans+ymaF") 11 H) as (s & Hs & _).
  rewrite Hs. f_equal. apply Ok_inj. rewrite <- Hs. reflexivity.
Defined.

Lemma for_each_pure_on {X S} (f : S → X → S) (xs : list X) (body : X → S → result S)
    (st : S) :
  (∀ a st, a ∈ xs → body a st = Ok (f st a)) → for_each xs body st = Ok (foldl f st xs).
Proof.
  revert st. induction xs as [|a xs IH]; intros st Hbody; simpl; [done|].
  rewrite Hbody by left. simpl. apply IH. intros c st' Hc. apply Hbody. by right.
Qed.

Lemma font_step_next (data : bytes) (pos : Z) (fonts : gset str) :
  pos ∈ find_all data font_marker →
  font_step data pos fonts = Ok (font_next data fonts pos).
Proof.
  intros Hpos. destruct (find_all_bound data font_marker pos) as [H0 Hb]; [done|done|].
  change (len font_marker) with 5 in Hb.
  destruct (font_walk_range data (pos - 1)) as (s & Hs & _); [lia|].
  unfold font_step, font_next. rewrite Hs. done.
Qed.

Lemma font_fold_elem_of (data : bytes) (positions : list Z) (fonts : gset str) (f : str) :
  f ∈ foldl (font_next data) fonts positions ↔
  f ∈ fonts ∨ ∃ pos start, pos ∈ positions ∧ font_walk data (pos - 1) = Ok start ∧
                           f = decode_ascii_ignore (slice data (start + 1) pos) ∧ f ≠ [].
Proof.
  revert fonts. induction positions as [|p ps IH]; intros fonts; simpl.
  - split; [auto|]. intros [Hf|(pos & s & Hpos & _)]; [done|]. by apply elem_of_nil in Hpos.
  - rewrite IH. unfold font_next at 1. split.
    + intros [Hf|(pos & s & Hpos & Hrest)].
      * destruct (font_walk data (p - 1)) as [s|] eqn:Es; [|auto].
        case_bool_decide as Hne; [|auto].
        apply elem_of_union in Hf as [Hf|Hf%elem_of_singleton]; [auto|].
        right. exists p, s. split; [left|]. by subst f.
      * right. exists pos, s. split; [by right|done].
    + intros [Hf|(pos & s & Hpos & Hs & -> & Hne)].
      * left. destruct (font_walk data (p - 1)); [|done].
        case_bool_decide; [|done]. apply elem_of_union. auto.
      * apply elem_of_cons in Hpos as [->|Hpos]; [|right; by exists pos, s].
        left. rewrite Hs. rewrite bool_decide_eq_true_2 by done.
        apply elem_of_union. right. by apply elem_of_singleton.
Qed.

Lemma extract_fonts_elem_of (data : bytes) :
  ∃ fs, extract_fonts data = Ok fs ∧
    ∀ f, f ∈ fs ↔ ∃ pos start, pos ∈ find_all data font_marker ∧
                     font_walk data (pos - 1) = Ok start ∧
                     f = decode_ascii_ignore (slice data (start + 1) pos) ∧ f ≠ [].
Proof.
  unfold extract_fonts.
  rewrite (for_each_pure_on (font_next data)) by (intros; by apply font_step_next).
  simpl. eexists. split; [done|]. intros f.
  rewrite sorted_elem_of, elem_of_elements, font_fold_elem_of.
  split; [|auto]. intros [Hf|Hf]; [|done]. by apply not_elem_of_empty in Hf.
Qed.

(** X7. [extract_fonts] returns normally, and every character of every
    font name it returns is an ASCII letter or digit, a hyphen or an
    underscore: the Latin-1 letters the walk passes are dropped when the
    name is decoded. *)
Theorem font_names_charset (data : bytes) :
  ∃ fs, extract_fonts data = Ok fs ∧
    ∀ f, f ∈ fs → Forall (λ c, font_char c = true) f.
Proof.
  destruct (extract_fonts_elem_of data) as (fs & E & Hfs).
  exists fs. split; [done|]. intros f (pos & s & Hpos & Hs & -> & _)%Hfs.
  destruct (find_all_bound data font_marker pos) as [H0 Hb]; [done|done|].
  change (len font_marker) with 5 in Hb.
  destruct (font_walk_range data (pos - 1)) as (s' & Hs' & Hw0 & Hw1); [lia|].
  rewrite Hs in Hs'. apply Ok_inj in Hs' as <-.
  destruct (font_walk_post data (pos - 1) s Hs) as [Ha _].
  apply Forall_forall. intros c (a & Ha' & Hlt & ->)%elem_of_decode_ascii_ignore.
  destruct (decide (pos = 0)) as [->|Hne].
  { rewrite Hw0 in Ha' by lia. simpl in Ha'. rewrite slice_empty in Ha' by lia.
    by apply elem_of_nil in Ha'. }
  assert (0 ≤ s).
  { destruct (decide (pos - 1 ≤ 0)); [rewrite Hw0 by done; lia|].
    specialize (Hw1 ltac:(lia)). lia. }
  apply elem_of_slice in Ha' as (k & Hk & Hlk); [|lia|lia].
  apply font_byte_ok_char; [|done].
  destruct (Ha k ltac:(lia)) as (a' & Hlk' & Hok). congruence.
Qed.

(** ** The text strings *)

Lemma decode_utf8_ignore_length (bs : bytes) :
  (length (decode_utf8_ignore bs) ≤ length bs)%nat.
Proof.
  remember (length bs) as n eqn:Hn. assert (Hle : (length bs ≤ n)%nat) by lia.
  clear Hn. revert bs Hle. induction n as [|n IH]; intros bs Hle.
  { destruct bs; [done|simpl in Hle; lia]. }
  destruct bs as [|b0 r0]; [done|]. cbn [decode_utf8_ignore].
  repeat case_match; subst; cbn [length] in *;
    repeat match goal with
           | |- context [length (decode_utf8_ignore ?l)] =>
             let H := fresh in
             pose proof (IH l) as H; generalize dependent (decode_utf8_ignore l); intros
           end;
    cbn [length] in *; lia.
Qed.

Lemma rstrip_while_length (f : N → bool) (s : str) :
  (length (rstrip_while f s) ≤ length s)%nat.
Proof.
  destruct (rstrip_while_split f s) as (k & Hk & _).
  rewrite Hk at 2. rewrite length_app. lia.
Qed.

Lemma slice_length {A} (data : list A) (i j : Z) :
  0 ≤ i ≤ j →
  Z.of_nat (length (slice data i j)) = Z.min j (len data) - Z.min i (len data).
Proof.
  intros Hij. rewrite slice_nonneg by lia.
  rewrite length_take, length_drop. unfold len. lia.
Qed.

Lemma text_kept_origin (ul : str → str) (data : bytes) (pos : Z) (t : str) :
  text_kept ul data pos = Some t →
  ∃ length, unpack_I (slice data (pos + 5) (pos + 9)) = Ok length ∧
            0 < length < 500 ∧ t = strip (text_at data pos length) ∧ t ≠ [] ∧
            denied ul (text_at data pos length) = false.
Proof.
  unfold text_kept. destruct (unpack_I _) as [length|]; [|done].
  destruct (_ && _) eqn:E; [|done]. intros [= <-].
  apply andb_prop in E as [[[H0%Z.ltb_lt H1%Z.ltb_lt]%andb_prop Hne%bool_decide_eq_true]%andb_prop Hd%negb_true_iff].
  by exists length.
Qed.

(** X8. [extract_text] returns a list that is sorted and free of
    duplicates, and every string in it is non-empty, has fewer than 500
    characters and neither begins nor ends with whitespace. *)
Theorem text_invariant (ul : str → str) (data : bytes) :
  ∃ ts, extract_text ul data = Ok ts ∧
    NoDup ts ∧ StronglySorted str_le ts ∧
    ∀ t, t ∈ ts →
      0 < len t < 500 ∧
      (∀ c, head t = Some c → isspace c = false) ∧
      (∀ c, last t = Some c → isspace c = false).
Proof.
  destruct (extract_text_ok ul data) as (ts & E & Hnd & Hs & Hin).
  exists ts. split; [done|]. split; [done|]. split; [done|].
  intros t (pos & Hpos & Hk)%Hin.
  destruct (text_kept_origin ul data pos t Hk) as (length & Hu & Hr & -> & Hne & _).
  split; [|split; intros c; apply strip_ends].
  split; [destruct (strip _); [done|unfold len; simpl; lia]|].
  pose proof (strip_length (text_at data pos length)) as H1.
  unfold text_at in *.
  pose proof (rstrip_while_length (N.eqb 0)
                (decode_utf8_ignore (slice data (pos + 9) (pos + 9 + length)))) as H2.
  pose proof (decode_utf8_ignore_length (slice data (pos + 9) (pos + 9 + length))) as H3.
  destruct (find_all_bound data text_marker pos) as [H0 _]; [done|done|].
  pose proof (slice_length data (pos + 9) (pos + 9 + length) ltac:(lia)) as H4.
  unfold rstrip_nul, len in *. lia.
Qed.

(** ** Records cut short by the end of the buffer *)

(** X9. A text marker with fewer than five bytes after it, and a box
    marker with fewer than thirty-two bytes after it, leave the state of
    their loop as it was: a length field or a set of coordinates cut
    short by the end of the buffer, or a length field with no payload
    behind it, yields nothing. *)
Theorem truncated_records_skipped (ul : str → str) (data : bytes) (pos : Z) :
  0 ≤ pos →
  (len data < pos + 10 → ∀ texts, text_step ul data pos texts = Ok texts) ∧
  (len data < pos + 36 → ∀ st, bounds_step data pos st = Ok st).
Proof.
  intros Hpos. pose proof (len_nonneg data). split.
  - intros Hlen texts. rewrite text_step_kept.
    destruct (text_kept ul data pos) as [t|] eqn:Hk; [|done]. exfalso.
    destruct (text_kept_origin ul data pos t Hk) as (length & Hu & Hr & -> & Hne & _).
    unfold unpack_I in Hu. case_bool_decide as H4; [|done].
    pose proof (slice_length data (pos + 5) (pos + 9) ltac:(lia)) as H5.
    pose proof (slice_length data (pos + 9) (pos + 9 + length) ltac:(lia)) as H6.
    apply Hne. unfold text_at.
    destruct (slice data (pos + 9) (pos + 9 + length)); [done|]. simpl in H6. lia.
  - intros Hlen st. rewrite bounds_step_next. unfold bounds_next, box_kept.
    unfold unpack_4d. rewrite bool_decide_eq_false_2; [done|].
    pose proof (slice_length data (pos + 4) (pos + 36) ltac:(lia)). lia.
Qed.

(** A text marker followed by a length field only, and a box marker
    followed by three doubles only. *)
Lemma truncated_records_skipped_witness :
  0 ≤ 0 ∧
  text_step ascii_only (text_record 5 []) 0 ∅ = Ok ∅ ∧
  bounds_step (bounds_marker ++ le_bytes 8 f64_0 ++ le_bytes 8 f64_0 ++ le_bytes 8 f64_10)
    0 ([], ∅) = Ok ([], ∅).
Proof.
  split; [lia|]. split.
  - apply (truncated_records_skipped ascii_only (text_record 5 []) 0 ltac:(lia)).
    vm_compute. reflexivity.
  - apply (truncated_records_skipped ascii_only
             (bounds_marker ++ le_bytes 8 f64_0 ++ le_bytes 8 f64_0 ++ le_bytes 8 f64_10)
             0 ltac:(lia)).
    vm_compute. reflexivity.
Defined.

(** ** How many entries an extractor returns *)

Lemma gset_size_add `{Countable K} (X : gset K) (a : K) :
  (size (X ∪ {[a]}) ≤ S (size X))%nat.
Proof.
  destruct (decide (a ∈ X)) as [Ha|Ha].
  - replace (X ∪ {[a]}) with X; [lia|]. apply set_eq. intros z.
    rewrite elem_of_union, elem_of_singleton. split; [auto|]. by intros [Hz | ->].
  - rewrite size_union, size_singleton; [lia|].
    intros z Hz ->%elem_of_singleton. done.
Qed.

Lemma foldl_size_le {K} `{Countable K} {X} (f : gset K → X → gset K) (xs : list X)
    (st : gset K) :
  (∀ st a, size (f st a) ≤ S (size st))%nat →
  (size (foldl f st xs) ≤ size st + length xs)%nat.
Proof.
  intros Hf. revert st. induction xs as [|a xs IH]; intros st; simpl; [lia|].
  etrans; [apply IH|]. specialize (Hf st a). lia.
Qed.

Lemma sorted_length {A} (leb : A → A → bool) (l : list A) :
  length (sorted leb l) = length l.
Proof. by rewrite (sorted_perm leb). Qed.

Lemma bounds_fold_length (data : bytes) (positions : list Z)
    (st : list box * gset (Z * Z * Z * Z)) :
  (length (foldl (bounds_next data) st positions).1 ≤ length st.1 + length positions)%nat.
Proof.
  revert st. induction positions as [|p ps IH]; intros st; simpl; [lia|].
  etrans; [apply IH|]. unfold bounds_next.
  destruct (box_kept data p); [|lia]. case_bool_decide; simpl; [|lia].
  rewrite length_app. simpl. lia.
Qed.

(** X10. No extractor returns more entries than its marker has
    occurrences in the buffer. *)
Theorem entries_at_most_occurrences (ul : str → str) (data : bytes) :
  (length (extract_layers data) ≤ length (find_all data layer_marker))%nat ∧
  (∃ ts, extract_text ul data = Ok ts ∧
         (length ts ≤ length (find_all data text_marker))%nat) ∧
  (∃ fs, extract_fonts data = Ok fs ∧
         (length fs ≤ length (find_all data font_marker))%nat) ∧
  (∃ bs, extract_bounds data = Ok bs ∧
         (length bs ≤ length (find_all data bounds_marker))%nat).
Proof.
  split; [|split; [|split]].
  - unfold extract_layers. rewrite sorted_length.
    change (length (elements ?S)) with (size S).
    etrans; [apply foldl_size_le|by rewrite size_empty].
    intros st a. unfold layer_step. destruct (_ && _); [apply gset_size_add|lia].
  - unfold extract_text. erewrite for_each_pure by apply text_step_kept. simpl.
    eexists. split; [done|]. rewrite sorted_length.
    change (length (elements ?S)) with (size S).
    etrans; [apply foldl_size_le|by rewrite size_empty].
    intros st a. simpl. destruct (text_kept ul data a); [apply gset_size_add|lia].
  - unfold extract_fonts.
    rewrite (for_each_pure_on (font_next data)) by (intros; by apply font_step_next).
    simpl. eexists. split; [done|]. rewrite sorted_length.
    change (length (elements ?S)) with (size S).
    etrans; [apply foldl_size_le|by rewrite size_empty].
    intros st a. unfold font_next. destruct (font_walk data (a - 1)); [|lia].
    case_bool_decide; [apply gset_size_add|lia].
  - unfold extract_bounds. erewrite for_each_pure by (intros; apply bounds_step_next).
    simpl. eexists. split; [done|]. rewrite sorted_length.
    etrans; [apply bounds_fold_length|]. simpl. lia.
Qed.

(** ** The span handed to the JSON parser *)

Lemma occurs_at_drop (B M : bytes) (o : Z) :
  M ≠ [] → 0 ≤ o → occurs_at B M o → ∃ t, drop (Z.to_nat o) B = M ++ t.
Proof.
  intros HM Ho Hocc. rewrite <- (Z2Nat.id o) in Hocc by done.
  by apply occurs_at_prefix in Hocc as [_ [t Ht]]; [exists t|].
Qed.

Lemma document_prefix_no_brace (k : nat) :
  (k < 11)%nat → document_prefix !! k ≠ Some x7d.
Proof.
  intros Hk. do 11 (destruct k as [|k]; [vm_compute; discriminate|]). lia.
Qed.

(** X11. When the opening sequence occurs in a raw file that can be
    read, the parser is handed a span that starts at its first
    occurrence: if a closing double brace follows, the span is the
    opening sequence, the bytes up to the first closing double brace,
    and that double brace; if none follows, the span is cut at index 1
    of the file, so it is the single opening brace when the file starts
    with the opening sequence and empty otherwise. The result is
    whatever [json.loads] makes of that span. *)
Theorem metadata_span {json : Type} (json_loads : bytes → result json)
    (read_bytes : str → result bytes) (af_path : str) (raw : bytes) :
  read_bytes af_path = Ok raw →
  find raw document_prefix 0 ≠ -1 →
  let start := find raw document_prefix 0 in
  let close := find raw (b "}}") start in
  let parsed span :=
    match json_loads span with Ok v => Ok (Some v) | Raise _ => Ok None end in
  (close ≠ -1 →
     ∃ mid, slice raw start (close + 2) = document_prefix ++ mid ++ b "}}" ∧
            extract_metadata json_loads read_bytes af_path
              = parsed (document_prefix ++ mid ++ b "}}")) ∧
  (close = -1 →
     extract_metadata json_loads read_bytes af_path
       = parsed (if start =? 0 then [x7b] else [])).
Proof.
  intros Hraw Hne start close parsed.
  destruct (find_some raw document_prefix 0 ltac:(done) ltac:(lia) Hne)
    as ([H0 _] & Hs & _). fold start in H0, Hs.
  destruct (occurs_at_drop raw document_prefix start ltac:(done) H0 Hs) as [t Ht].
  assert (Hmeta : extract_metadata json_loads read_bytes af_path
                  = parsed (slice raw start (close + 2))).
  { unfold extract_metadata. rewrite Hraw. simpl. fold start. fold close.
    by destruct (Z.eqb_spec start (-1)). }
  rewrite Hmeta. split.
  - intros Hc.
    destruct (find_some raw (b "}}") start ltac:(done) H0 Hc) as ([Hsc _] & Hocc & _).
    fold close in Hsc, Hocc.
    destruct (occurs_at_drop raw (b "}}") close ltac:(done) ltac:(lia) Hocc) as [t' Ht'].
    assert (Hdrop : drop (Z.to_nat (close - start)) (document_prefix ++ t) = b "}}" ++ t').
    { rewrite <- Ht, drop_drop, <- Ht'. f_equal. lia. }
    assert (Hk : (11 ≤ Z.to_nat (close - start))%nat).
    { destruct (decide (11 ≤ Z.to_nat (close - start))%nat) as [|Hlt]; [done|]. exfalso.
      apply (document_prefix_no_brace (Z.to_nat (close - start))); [lia|].
      rewrite <- (lookup_app_l _ t) by (change (length document_prefix) with 11%nat; lia).
      rewrite <- (Nat.add_0_r (Z.to_nat (close - start))), <- lookup_drop. by rewrite Hdrop. }
    rewrite drop_app_ge in Hdrop by (change (length document_prefix) with 11%nat; lia).
    change (length document_prefix) with 11%nat in Hdrop.
    set (m := (Z.to_nat (close - start) - 11)%nat) in *.
    assert (Hspan : slice raw start (close + 2)
                    = document_prefix ++ take m t ++ b "}}").
    { rewrite slice_nonneg by lia. rewrite Ht.
      rewrite take_app_ge by (change (length document_prefix) with 11%nat; lia).
      change (length document_prefix) with 11%nat. f_equal.
      replace (Z.to_nat (close + 2 - start) - 11)%nat with (m + 2)%nat by lia.
      rewrite <- take_take_drop. by rewrite Hdrop. }
    exists (take m t). by rewrite Hspan.
  - intros Hc. rewrite Hc. f_equal. simpl.
    rewrite slice_nonneg by lia. destruct (Z.eqb_spec start 0) as [E|E].
    + rewrite Ht. rewrite E. reflexivity.
    + replace (Z.to_nat (-1 + 2 - start)) with 0%nat by lia. done.
Qed.

(** The span of [sample_raw], and the span of a file that opens a
    document and never closes it. *)
Lemma metadata_span_witness :
  (λ _ : str, Ok sample_raw) (u "doc.af") = Ok sample_raw ∧
  find sample_raw document_prefix 0 ≠ -1 ∧
  extract_metadata sample_json_loads (λ _, Ok sample_raw) (u "doc.af")
    = Ok (Some sample_document) ∧
  extract_metadata sample_json_loads (λ _, Ok (document_prefix ++ b ":1")) (u "doc.af")
    = Ok None.
Proof.
  split; [reflexivity|]. split; [by vm_compute|]. split.
  - destruct (metadata_span sample_json_loads (λ _, Ok sample_raw) (u "doc.af")
                sample_raw eq_refl ltac:(by vm_compute)) as [H _].
    destruct H as (mid & Hspan & ->); [by vm_compute|].
    rewrite <- Hspan. by vm_compute.
  - destruct (metadata_span sample_json_loads (λ _, Ok (document_prefix ++ b ":1"))
                (u "doc.af") (document_prefix ++ b ":1") eq_refl ltac:(by vm_compute))
      as [_ H].
    rewrite H; by vm_compute.
Defined.

(** ** The command line *)

Lemma find_all_short (B M : bytes) : len B < len M → find_all B M = [].
Proof.
  intros Hshort. assert (HM : M ≠ []) by (intros ->; unfold len in *; simpl in *; lia).
  destruct (find_all B M) as [|o l] eqn:E; [done|].
  destruct (find_all_bound B M o HM) as [H0 Hb]; [rewrite E; left|lia].
Qed.

Lemma extract_metadata_raise {json : Type} (json_loads : bytes → result json)
    (read_bytes : str → result bytes) (af_path : str) (e : exn) :
  extract_metadata json_loads read_bytes af_path = Raise e → read_bytes af_path = Raise e.
Proof.
  unfold extract_metadata. destruct (read_bytes af_path) as [raw|e']; simpl; [|congruence].
  destruct (negb _); [|done]. by destruct (json_loads _).
Qed.

Lemma argv_get_in_range (argv : list str) (i : nat) :
  Z.of_nat i < len argv → ∃ a, argv !! i = Some a ∧ argv_get argv i = Ok a.
Proof.
  intros Hi. destruct (lookup_lt_is_Some_2 argv i) as [a Ha]; [unfold len in Hi; lia|].
  exists a. split; [done|]. unfold argv_get. by rewrite Ha.
Qed.

Section MainFacts.
Context {json : Type}.
Variable json_loads : bytes → result json.
Variable ul : str → str.
Variable read_bytes : str → result bytes.
Variable path_exists : str → bool.
Variable path_str : str → str.
Variable extract_zstd_data : str → result (option bytes).

Local Abbreviation run := (main json_loads ul read_bytes path_exists path_str extract_zstd_data).

Lemma assemble_fields (src : str) (meta : option json) (data : bytes) :
  ∃ ts fs bs,
    extract_text ul data = Ok ts ∧ extract_fonts data = Ok fs ∧
    extract_bounds data = Ok bs ∧
    assemble ul src meta data = Ok (Report src meta (extract_layers data) ts fs (take 30 bs)).
Proof.
  destruct (extract_bounds_ok data) as (bs & E & _).
  destruct (extract_text_ok ul data) as (ts & Et & _).
  destruct (extract_fonts_ok data) as (fs & Ef & _).
  exists ts, fs, bs. split; [done|]. split; [done|]. split; [done|].
  unfold assemble. rewrite Et, Ef, E. simpl. by rewrite slice_take by lia.
Qed.

Lemma main_primary (argv : list str) (af : str) :
  argv !! 1%nat = Some af → af ≠ u "--from-bin" →
  run argv =
  if negb (path_exists af) then Raise (SystemExit 1)
  else meta ← extract_metadata json_loads read_bytes af;
       data ← extract_zstd_data af;
       match data with
       | None | Some [] => Raise (SystemExit 1)
       | Some data => r ← assemble ul (path_str af) meta data; Ok (r, argv_opt argv 2)
       end.
Proof.
  intros H1 Hne. destruct (argv_get_lookup argv 1 _ H1) as [E1 L1].
  unfold main. destruct (Z.ltb_spec (len argv) 2); [simpl in L1; lia|].
  rewrite E1. simpl. by rewrite bool_decide_eq_false_2.
Qed.

Lemma main_from_bin (argv : list str) :
  argv !! 1%nat = Some (u "--from-bin") →
  run argv =
  if len argv <? 3 then Raise (SystemExit 1)
  else bin_path ← argv_get argv 2;
       data ← read_bytes bin_path;
       r ← assemble ul (path_str bin_path) None data;
       Ok (r, argv_opt argv 3).
Proof.
  intros H1. destruct (argv_get_lookup argv 1 _ H1) as [E1 L1].
  unfold main. destruct (Z.ltb_spec (len argv) 2); [simpl in L1; lia|].
  rewrite E1. simpl. by rewrite ?bool_decide_eq_true_2.
Qed.


(** X13. When [main] gets through to the report, the report holds the
    path as [str(Path(...))] gives it, the four extractor results on
    the stream, and at most the first 30 boxes; in the primary mode the
    metadata is the result of [extract_metadata] on the file and the
    output path is the third word of the command line, with
    [--from-bin] the metadata is [None] and the output path is the
    fourth word. *)
Theorem main_report (argv : list str) (path : str) (data : bytes) :
  ∃ ts fs bs,
    extract_text ul data = Ok ts ∧ extract_fonts data = Ok fs ∧
    extract_bounds data = Ok bs ∧
    (∀ meta, argv !! 1%nat = Some path → path ≠ u "--from-bin" →
       path_exists path = true →
       extract_metadata json_loads read_bytes path = Ok meta →
       extract_zstd_data path = Ok (Some data) → data ≠ [] →
       run argv = Ok (Report (path_str path) meta (extract_layers data) ts fs (take 30 bs),
                      argv_opt argv 2)) ∧
    (argv !! 1%nat = Some (u "--from-bin") → argv !! 2%nat = Some path →
       read_bytes path = Ok data →
       run argv = Ok (Report (path_str path) None (extract_layers data) ts fs (take 30 bs),
                      argv_opt argv 3)).
Proof.
  destruct (assemble_fields (path_str path) None data) as (ts & fs & bs & Et & Ef & Eb & _).
  exists ts, fs, bs. split; [done|]. split; [done|]. split; [done|]. split.
  - intros meta H1 Hne Hex Hm Hz Hd. rewrite (main_primary argv path) by done.
    rewrite Hex, Hm. simpl. rewrite Hz. simpl.
    destruct (assemble_fields (path_str path) meta data) as (ts' & fs' & bs' & Et' & Ef' & Eb' & ->).
    destruct data; [done|]. simpl. congruence.
  - intros H1 H2 Hr. rewrite main_from_bin by done.
    destruct (argv_get_lookup argv 2 _ H2) as [E2 L2].
    destruct (Z.ltb_spec (len argv) 3); [simpl in L2; lia|].
    rewrite E2. simpl. rewrite Hr. simpl.
    destruct (assemble_fields (path_str path) (@None json) data)
      as (ts' & fs' & bs' & Et' & Ef' & Eb' & ->).
    simpl. congruence.
Qed.

(** X15. With [--from-bin] the stream is not tested for emptiness: a
    binary of fewer than four bytes, the empty one included, gives a
    report with four empty lists. *)
Theorem from_bin_short_binary (argv : list str) (bin : str) (data : bytes) :
  argv !! 1%nat = Some (u "--from-bin") → argv !! 2%nat = Some bin →
  read_bytes bin = Ok data → len data < 4 →
  run argv = Ok (Report (path_str bin) None [] [] [] [], argv_opt argv 3).
Proof.
  intros H1 H2 Hr Hshort. rewrite main_from_bin by done.
  destruct (argv_get_lookup argv 2 _ H2) as [E2 L2].
  destruct (Z.ltb_spec (len argv) 3); [simpl in L2; lia|].
  rewrite E2. simpl. rewrite Hr. simpl.
  unfold assemble, extract_layers, extract_text, extract_fonts, extract_bounds.
  rewrite (find_all_short data layer_marker) by (change (len layer_marker) with 5; lia).
  rewrite (find_all_short data text_marker) by (change (len text_marker) with 5; lia).
  rewrite (find_all_short data font_marker) by (change (len font_marker) with 5; lia).
  rewrite (find_all_short data bounds_marker) by (change (len bounds_marker) with 4; lia).
  done.
Qed.
End MainFacts.


(** A run in the primary mode on a stream with one text record. *)
Lemma main_report_witness :
  main sample_json_loads ascii_only (λ _, Ok sample_raw) (λ _, true) (λ p, p)
    (λ _, Ok (Some (text_record 11 (b "Hello World"))))
    [u "extract_affinity.py"; u "doc.af"; u "out.json"]
  = Ok (Report (u "doc.af") (Some sample_document) [] [u "Hello World"] [] [],
        Some (u "out.json")).
Proof.
  destruct (main_report sample_json_loads ascii_only (λ _, Ok sample_raw) (λ _, true)
              (λ p, p) (λ _, Ok (Some (text_record 11 (b "Hello World"))))
              [u "extract_affinity.py"; u "doc.af"; u "out.json"] (u "doc.af")
              (text_record 11 (b "Hello World")))
    as (ts & fs & bs & Et & Ef & Eb & Hp & _).
  rewrite (Hp (Some sample_document)); [|reflexivity|discriminate|reflexivity
                                        |by vm_compute|reflexivity|discriminate].
  vm_compute in Et. apply Ok_inj in Et as <-.
  vm_compute in Ef. apply Ok_inj in Ef as <-.
  vm_compute in Eb. apply Ok_inj in Eb as <-.
  reflexivity.
Defined.

(** A run with [--from-bin] on an empty file. *)
Lemma from_bin_short_binary_witness :
  [u "extract_affinity.py"; u "--from-bin"; u "empty.bin"] !! 1%nat = Some (u "--from-bin") ∧
  len ([] : bytes) < 4 ∧
  main sample_json_loads ascii_only (λ _, Ok []) (λ _, true) (λ p, p) (λ _, Ok None)
    [u "extract_affinity.py"; u "--from-bin"; u "empty.bin"]
  = Ok (Report (u "empty.bin") None [] [] [] [], None).
Proof.
  split; [reflexivity|]. split; [reflexivity|].
  exact (from_bin_short_binary sample_json_loads ascii_only (λ _, Ok []) (λ _, true)
           (λ p, p) (λ _, Ok None)
           [u "extract_affinity.py"; u "--from-bin"; u "empty.bin"] (u "empty.bin") []
           eq_refl eq_refl eq_refl eq_refl).
Defined.

(** ** Bytes appended to the buffer *)

Lemma find_all_app_elem (B B' M : bytes) (o : Z) :
  M ≠ [] → o ∈ find_all B M → o ∈ find_all (B ++ B') M.
Proof.
  intros HM. rewrite !find_all_brute_force by done. unfold brute_force.
  rewrite !list_elem_of_filter, !elem_of_seqZ, len_app.
  intros [Hocc Ho]. pose proof (len_nonneg B').
  pose proof (occurs_at_bound B M o HM ltac:(lia) Hocc).
  split; [by apply occurs_at_app; [lia|done|]|lia].
Qed.

Lemma slice_app_l {A} (l k : list A) (i j : Z) :
  0 ≤ i → 0 ≤ j ≤ len l → slice (l ++ k) i j = slice l i j.
Proof.
  intros Hi Hj. rewrite !slice_nonneg by lia.
  destruct (Z.le_gt_cases i j).
  - rewrite drop_app_le by (unfold len in *; lia).
    rewrite take_app_le; [done|]. rewrite length_drop. unfold len in *. lia.
  - by replace (Z.to_nat (j - i)) with 0%nat by lia.
Qed.

(** The end of a walk is fixed by what the walk guarantees. *)
Lemma walk_end_unique (ok : Z → Prop) (start s1 s2 : Z) :
  (s1 ≤ start ∧ (∀ i, s1 < i ≤ start → ok i) ∧ (0 < s1 → ¬ ok s1)) →
  (s2 ≤ start ∧ (∀ i, s2 < i ≤ start → ok i) ∧ (0 < s2 → ¬ ok s2)) →
  0 ≤ s1 → 0 ≤ s2 → s1 = s2.
Proof.
  intros (Hs1 & Ha1 & Hb1) (Hs2 & Ha2 & Hb2) H1 H2.
  destruct (Z.lt_trichotomy s1 s2) as [Hlt|[->|Hlt]]; [|done|].
  - destruct (Hb2 ltac:(lia)). apply Ha1. lia.
  - destruct (Hb1 ltac:(lia)). apply Ha2. lia.
Qed.

Lemma layer_walk_app (B B' : bytes) (start : Z) :
  start < len B → layer_walk (B ++ B') start = layer_walk B start.
Proof.
  intros Hlt. destruct (Z.le_gt_cases start 0) as [H0|H0].
  { destruct (layer_walk_range (B ++ B') start) as [E1 _].
    destruct (layer_walk_range B start) as [E2 _].
    by rewrite E1, E2. }
  destruct (layer_walk_range (B ++ B') start) as [_ Hr1].
  destruct (layer_walk_range B start) as [_ Hr2].
  destruct (layer_walk_post (B ++ B') start) as [Ha1 Hb1].
  destruct (layer_walk_post B start) as [Ha2 Hb2].
  specialize (Hr1 H0). specialize (Hr2 H0).
  apply (walk_end_unique (λ i, layer_byte_ok (slice B i (i + 1)) = true) start);
    [|split; [lia|split; [done|]]|lia|lia].
  - split; [lia|]. split.
    + intros i Hi. rewrite <- (slice_app_l B B') by lia. by apply Ha1.
    + intros Hs. rewrite <- (slice_app_l B B') by lia. rewrite Hb1 by done. done.
  - intros Hs. by rewrite Hb2.
Qed.

Lemma lookup_app_Z {A} (l k : list A) (i : Z) :
  0 ≤ i < len l → (l ++ k) !! Z.to_nat i = l !! Z.to_nat i.
Proof. intros Hi. apply lookup_app_l. unfold len in Hi. lia. Qed.

Lemma font_walk_app (B B' : bytes) (start : Z) :
  start < len B → font_walk (B ++ B') start = font_walk B start.
Proof.
  intros Hlt. pose proof (len_nonneg B').
  destruct (font_walk_range (B ++ B') start) as (s1 & E1 & Hz1 & Hr1); [rewrite len_app; lia|].
  destruct (font_walk_range B start) as (s2 & E2 & Hz2 & Hr2); [done|].
  rewrite E1, E2. f_equal.
  destruct (Z.le_gt_cases start 0) as [H0|H0]; [by rewrite Hz1, Hz2|].
  specialize (Hr1 H0). specialize (Hr2 H0).
  destruct (font_walk_post (B ++ B') start s1 E1) as [Ha1 Hb1].
  destruct (font_walk_post B start s2 E2) as [Ha2 Hb2].
  apply (walk_end_unique (λ i, ∃ a, B !! Z.to_nat i = Some a ∧ font_byte_ok a = true) start);
    [|split; [lia|split; [done|]]|lia|lia].
  - split; [lia|]. split.
    + intros i Hi. rewrite <- (lookup_app_Z B B') by lia. by apply Ha1.
    + intros Hs (a & Ha & Hok). destruct (Hb1 Hs) as (a' & Ha' & Hno).
      rewrite lookup_app_Z in Ha' by lia. congruence.
  - intros Hs (a & Ha & Hok). destruct (Hb2 Hs) as (a' & Ha' & Hno). congruence.
Qed.

Lemma unpack_4d_length (bs : bytes) v : unpack_4d bs = Ok v → length bs = 32%nat.
Proof. unfold unpack_4d. by case_bool_decide. Qed.

(** X16. Bytes appended to a buffer take no layer name, font name or
    box away: what is extracted from [B] is extracted from [B ++ B']
    as well. *)
Theorem extraction_grows (B B' : bytes) :
  (∀ n, n ∈ extract_layers B → n ∈ extract_layers (B ++ B')) ∧
  (∃ fs fs', extract_fonts B = Ok fs ∧ extract_fonts (B ++ B') = Ok fs' ∧
             ∀ f, f ∈ fs → f ∈ fs') ∧
  (∃ bs bs', extract_bounds B = Ok bs ∧ extract_bounds (B ++ B') = Ok bs' ∧
             ∀ r, r ∈ bs → r ∈ bs').
Proof.
  split; [|split].
  - unfold extract_layers. intros n.
    rewrite !sorted_elem_of, !elem_of_elements, !layer_fold_elem_of.
    intros [Hn|(pos & Hpos & -> & Hl)]; [auto|]. right. exists pos.
    destruct (find_all_bound B layer_marker pos) as [H0 Hb]; [done|done|].
    change (len layer_marker) with 5 in Hb.
    assert (layer_name (B ++ B') pos = layer_name B pos) as E.
    { unfold layer_name. rewrite layer_walk_app by lia.
      destruct (layer_walk_range B (pos - 1)) as [Hw0 Hw1].
      rewrite slice_app_l; [done| |lia].
      destruct (decide (pos - 1 ≤ 0)); [rewrite Hw0 by done; lia|].
      specialize (Hw1 ltac:(lia)). lia. }
    rewrite E. split; [by apply find_all_app_elem|done].
  - destruct (extract_fonts_elem_of B) as (fs & E & Hfs).
    destruct (extract_fonts_elem_of (B ++ B')) as (fs' & E' & Hfs').
    exists fs, fs'. split; [done|]. split; [done|].
    intros f (pos & s & Hpos & Hs & -> & Hne)%Hfs. apply Hfs'.
    destruct (find_all_bound B font_marker pos) as [H0 Hb]; [done|done|].
    change (len font_marker) with 5 in Hb.
    destruct (font_walk_range B (pos - 1)) as (s' & Hs' & Hw0 & Hw1); [lia|].
    rewrite Hs in Hs'. apply Ok_inj in Hs' as <-.
    exists pos, s. split; [by apply find_all_app_elem|].
    split; [by rewrite font_walk_app by lia|].
    rewrite slice_app_l; [done| |lia].
    destruct (decide (pos - 1 ≤ 0)); [rewrite Hw0 by done; lia|].
    specialize (Hw1 ltac:(lia)). lia.
  - destruct (extract_bounds_ok B) as (bs & E & _ & _ & Hbs).
    destruct (extract_bounds_ok (B ++ B')) as (bs' & E' & _ & _ & Hbs').
    exists bs, bs'. split; [done|]. split; [done|].
    intros r (pos & Hpos & Hk)%Hbs. apply Hbs'. exists pos.
    split; [by apply find_all_app_elem|].
    destruct (find_all_bound B bounds_marker pos) as [H0 _]; [done|done|].
    destruct (box_kept_valid B pos r Hk) as (_ & x1 & y1 & x2 & y2 & Hu & _).
    apply unpack_4d_length in Hu.
    pose proof (slice_length B (pos + 4) (pos + 36) ltac:(lia)) as Hl.
    rewrite Hu in Hl. unfold box_kept in *.
    rewrite slice_app_l by lia. done.
Qed.

(** A text, in contrast, can change when bytes are appended: its
    declared length may reach past the end of the shorter buffer. *)
Example text_changes_when_appended :
  extract_text ascii_only (text_record 11 (b "Hello")) = Ok [u "Hello"] ∧
  extract_text ascii_only (text_record 11 (b "Hello") ++ b " World") = Ok [u "Hello World"].
Proof. split; vm_compute; reflexivity. Qed.

(** ** Boxes of equal area *)

Lemma precedes_lookup {A} (l : list A) (i j : nat) (a c : A) :
  l !! i = Some a → l !! j = Some c → (i < j)%nat → precedes l a c.
Proof.
  intros Hi Hj Hij. exists (take i l), (take (j - S i) (drop (S i) l)), (drop (S j) l).
  rewrite <- (take_drop_middle l i a Hi) at 1. do 2 f_equal.
  assert (Hc : drop (S i) l !! (j - S i)%nat = Some c).
  { rewrite lookup_drop. by replace (S i + (j - S i))%nat with j by lia. }
  rewrite <- (take_drop_middle _ _ c Hc) at 1. do 2 f_equal.
  rewrite drop_drop. f_equal. lia.
Qed.

Lemma precedes_cons {A} (l : list A) (z a c : A) :
  precedes l a c → precedes (z :: l) a c.
Proof. intros (l1 & l2 & l3 & ->). by exists (z :: l1), l2, l3. Qed.

Lemma precedes_filter_2 {A} (P : A → Prop) `{∀ a, Decision (P a)} (l : list A) (a c : A) :
  precedes l a c → P a → P c → precedes (filter P l) a c.
Proof.
  intros (l1 & l2 & l3 & ->) Ha Hc.
  exists (filter P l1), (filter P l2), (filter P l3).
  rewrite filter_app, filter_cons_True by done.
  by rewrite filter_app, filter_cons_True by done.
Qed.

Lemma precedes_filter_1 {A} (P : A → Prop) `{∀ a, Decision (P a)} (l : list A) (a c : A) :
  precedes (filter P l) a c → precedes l a c.
Proof.
  induction l as [|z l IH]; intros Hp.
  { destruct Hp as ([|??] & ? & ? & ?); discriminate. }
  rewrite filter_cons in Hp. case_decide; [|by apply precedes_cons, IH].
  destruct Hp as ([|z' l1] & l2 & l3 & E); simplify_list_eq.
  - assert (Hc : c ∈ filter P l) by (rewrite H2; apply elem_of_app; right; left).
    apply list_elem_of_filter in Hc as [_ (k1 & k2 & ->)%list_elem_of_split].
    by exists [], k1, k2.
  - apply precedes_cons, IH. by exists l1, l2, l3.
Qed.

Lemma precedes_snoc {A} (l : list A) (z a c : A) :
  precedes (l ++ [z]) a c → precedes l a c ∨ (c = z ∧ a ∈ l).
Proof.
  intros (l1 & l2 & l3 & E).
  assert (l3 = [] ∨ ∃ l3' y, l3 = l3' ++ [y]) as [->|(l3' & y & ->)].
  { destruct l3 as [|y l3 _] using rev_ind; [by left|right; by exists l3, y]. }
  - right. replace (l1 ++ a :: l2 ++ [c]) with ((l1 ++ a :: l2) ++ [c]) in E
      by (by rewrite <- app_assoc).
    apply app_inj_tail in E as [-> ->].
    split; [done|]. apply elem_of_app. right. left.
  - left. replace (l1 ++ a :: l2 ++ c :: l3' ++ [y])
      with ((l1 ++ a :: l2 ++ c :: l3') ++ [y]) in E
      by (rewrite <- !app_assoc; simpl; by rewrite <- !app_assoc).
    apply app_inj_tail in E as [-> _]. by exists l1, l2, l3'.
Qed.

(** The stable sort keeps boxes of one area in the order they had. *)
Lemma sorted_insert_same_area (a : Z) (r : box) (l : list box) :
  filter (λ r', area r' = a) (sorted_insert area_geb r l)
  = filter (λ r', area r' = a) (r :: l).
Proof.
  induction l as [|y l IH]; simpl; [done|].
  unfold area_geb at 1. destruct (Z.leb_spec (area y) (area r)); [done|].
  rewrite (filter_cons _ y), IH, !filter_cons.
  repeat case_decide; try done; lia.
Qed.

Lemma sorted_same_area (a : Z) (l : list box) :
  filter (λ r, area r = a) (sorted area_geb l) = filter (λ r, area r = a) l.
Proof.
  induction l as [|r l IH]; simpl; [done|].
  by rewrite sorted_insert_same_area, !filter_cons, IH.
Qed.

(** The list the loop of [extract_bounds] builds holds the boxes in the
    order of their first occurrences. *)
Lemma bounds_fold_order (data : bytes) (todo done : list Z)
    (st : list box * gset (Z * Z * Z * Z)) :
  StronglySorted Z.lt (done ++ todo) →
  (∀ k, k ∈ st.2 ↔ k ∈ box_key <$> st.1) →
  (∀ r, r ∈ st.1 ↔ ∃ p, p ∈ done ∧ box_kept data p = Some r) →
  (∀ r1 r2, precedes st.1 r1 r2 →
     ∃ p1, p1 ∈ done ∧ box_kept data p1 = Some r1 ∧
           ∀ p2, p2 ∈ done → box_kept data p2 = Some r2 → p1 < p2) →
  ∀ r1 r2, precedes (foldl (bounds_next data) st todo).1 r1 r2 →
     ∃ p1, p1 ∈ done ++ todo ∧ box_kept data p1 = Some r1 ∧
           ∀ p2, p2 ∈ done ++ todo → box_kept data p2 = Some r2 → p1 < p2.
Proof.
  revert done st. induction todo as [|p todo IH]; intros done st Hsorted Hseen Hin Hord.
  { simpl. rewrite app_nil_r. apply Hord. }
  simpl. rewrite cons_middle, app_assoc in Hsorted |- *.
  assert (Hlt : ∀ q, q ∈ done → q < p).
  { intros q Hq. pose proof (StronglySorted_app_1_l _ _ _ Hsorted) as Hs.
    apply (StronglySorted_app_1_elem_of _ _ _ _ _ Hs); [done|left]. }
  apply IH; [done|..].
  - intros k. unfold bounds_next. destruct (box_kept data p) as [r|]; [|done].
    case_bool_decide; [|done]. simpl.
    rewrite fmap_app, elem_of_app, elem_of_union, Hseen. simpl.
    by rewrite elem_of_singleton, list_elem_of_singleton.
  - intros r. setoid_rewrite elem_of_app. setoid_rewrite list_elem_of_singleton.
    unfold bounds_next. destruct (box_kept data p) as [r0|] eqn:Ek.
    + case_bool_decide as Hk; simpl.
      * rewrite elem_of_app, list_elem_of_singleton, Hin. split.
        -- intros [(q & Hq & Hkq)| ->]; [exists q; auto|exists p; auto].
        -- intros (q & [Hq | ->] & Hkq); [left; by exists q|right; congruence].
      * rewrite Hin. split.
        -- intros (q & Hq & Hkq). exists q. auto.
        -- intros (q & [Hq | ->] & Hkq); [by exists q|].
           apply Hin. apply Hseen in Hk.
           apply list_elem_of_fmap in Hk as (r' & Hkey & Hr').
           apply (inj box_key) in Hkey as ->. assert (r = r') as -> by congruence.
           done.
    + rewrite Hin. split.
      * intros (q & Hq & Hkq). exists q. auto.
      * intros (q & [Hq | ->] & Hkq); [by exists q|congruence].
  - intros r1 r2 Hp.
    assert (Hold : precedes st.1 r1 r2 →
              ∃ p1, p1 ∈ done ++ [p] ∧ box_kept data p1 = Some r1 ∧
                    ∀ p2, p2 ∈ done ++ [p] → box_kept data p2 = Some r2 → p1 < p2).
    { intros Hp'. destruct (Hord r1 r2 Hp') as (p1 & Hp1 & Hk1 & Hfirst).
      exists p1. split; [apply elem_of_app; by left|]. split; [done|].
      intros p2 [Hp2 | ->%list_elem_of_singleton]%elem_of_app Hk2; [by apply Hfirst|by apply Hlt]. }
    unfold bounds_next in Hp. destruct (box_kept data p) as [r|] eqn:Ek; [|by apply Hold].
    case_bool_decide as Hk; [|by apply Hold]. simpl in Hp.
    apply precedes_snoc in Hp as [Hp|[-> Hr1]]; [by apply Hold|].
    apply Hin in Hr1 as (p1 & Hp1 & Hk1).
    exists p1. split; [apply elem_of_app; by left|]. split; [done|].
    intros p2 [Hp2 | ->%list_elem_of_singleton]%elem_of_app Hk2; [|by apply Hlt].
    exfalso. apply Hk. apply Hseen. apply list_elem_of_fmap. exists r.
    split; [done|]. apply Hin. by exists p2.
Qed.

(** X17. Among the boxes [extract_bounds] returns, boxes of equal area
    stand in the order of their first occurrences in the buffer: if
    [r1] comes before [r2] and both have the same area, some occurrence
    yielding [r1] lies before every occurrence yielding [r2]. *)
Theorem bounds_ties_in_buffer_order (data : bytes) :
  ∃ bs, extract_bounds data = Ok bs ∧
    ∀ (i j : nat) (r1 r2 : box),
      bs !! i = Some r1 → bs !! j = Some r2 → (i < j)%nat → area r1 = area r2 →
      ∃ p1, p1 ∈ find_all data bounds_marker ∧ box_kept data p1 = Some r1 ∧
            ∀ p2, p2 ∈ find_all data bounds_marker → box_kept data p2 = Some r2 → p1 < p2.
Proof.
  unfold extract_bounds.
  erewrite for_each_pure by (intros; apply bounds_step_next). simpl.
  eexists. split; [done|]. intros i j r1 r2 Hi Hj Hij Harea.
  pose proof (precedes_lookup _ _ _ _ _ Hi Hj Hij) as Hp.
  apply (precedes_filter_2 (λ r, area r = area r1)) in Hp; [|done|done].
  rewrite sorted_same_area in Hp. apply precedes_filter_1 in Hp.
  apply (bounds_fold_order data (find_all data bounds_marker) [] ([], ∅)); simpl.
  - destruct (decide (bounds_marker = [])) as [E|HM]; [discriminate E|].
    rewrite find_all_brute_force by done. apply StronglySorted_filter, seqZ_sorted.
  - intros k. split; intros Hk; [by apply not_elem_of_empty in Hk|by apply elem_of_nil in Hk].
  - intros r. split; [intros Hr; by apply elem_of_nil in Hr|].
    intros (q & Hq & _). by apply elem_of_nil in Hq.
  - intros ? ? ([|??] & ? & ? & ?); discriminate.
  - done.
Qed.

(** Two boxes of area 100, and a larger one between them in the
    buffer: the larger one comes first, the two others keep their
    order. *)
Example bounds_ties_sample :
  extract_bounds (box_record f64_0 f64_0 f64_10 f64_10
                  ++ box_record f64_0 f64_0 f64_250 f64_200
                  ++ box_record f64_10 f64_10 f64_60 f64_10 ++ [x00]
                  ++ box_record f64_50 f64_50 f64_60 f64_60)
  = Ok [Box 250 200 0 0; Box 10 10 0 0; Box 10 10 50 50].
Proof. vm_compute. reflexivity. Qed.

(** A run on the three boxes of [bounds_ties_sample]. *)
Lemma bounds_ties_in_buffer_order_witness :
  ∃ p1, p1 ∈ find_all (box_record f64_0 f64_0 f64_10 f64_10
                       ++ box_record f64_0 f64_0 f64_250 f64_200
                       ++ box_record f64_50 f64_50 f64_60 f64_60) bounds_marker ∧
        box_kept (box_record f64_0 f64_0 f64_10 f64_10
                  ++ box_record f64_0 f64_0 f64_250 f64_200
                  ++ box_record f64_50 f64_50 f64_60 f64_60) p1 = Some (Box 10 10 0 0).
Proof.
  destruct (bounds_ties_in_buffer_order
              (box_record f64_0 f64_0 f64_10 f64_10
               ++ box_record f64_0 f64_0 f64_250 f64_200
               ++ box_record f64_50 f64_50 f64_60 f64_60)) as (bs & E & H).
  vm_compute in E. apply Ok_inj in E. subst bs.
  destruct (H 1%nat 2%nat (Box 10 10 0 0) (Box 10 10 50 50) eq_refl eq_refl ltac:(lia) eq_refl)
    as (p1 & Hp1 & Hk & _).
  exists p1. split; [exact Hp1|exact Hk].
Defined.

(** ** The file the stream is read from *)

Section ZstdFacts.
Variable ul : str → str.
Variable tmpdir : str.
Variable subprocess_run : list str → run_outcome.
Variable read_bytes : str → result bytes.
Variable path_str : str → str.
Variable path_join : str → str → str.

Lemma scan_files_none (root : str) (files : list str) :
  Forall (λ f, zstd_name ul f = false) files → scan_files ul path_join root files = None.
Proof. induction 1 as [|f files Hf _ IH]; simpl; [done|]. by rewrite Hf. Qed.

Lemma scan_files_first (root : str) (fs1 fs2 : list str) (f : str) :
  Forall (λ g, zstd_name ul g = false) fs1 → zstd_name ul f = true →
  scan_files ul path_join root (fs1 ++ f :: fs2) = Some (path_join root f).
Proof.
  intros Hfs Hf. induction Hfs as [|g fs1 Hg _ IH]; simpl; [by rewrite Hf|]. by rewrite Hg.
Qed.

Lemma scan_walk_none (walk : list (str * list str * list str)) :
  no_zstd_name ul walk → scan_walk ul path_join walk = None.
Proof.
  induction walk as [|[[root dirs] files] walk IH]; intros Hn; simpl; [done|].
  rewrite scan_files_none.
  - apply IH. intros r d fs f Hin. apply (Hn r d fs f). by right.
  - apply Forall_forall. intros f Hf. apply (Hn root dirs files f); [left|done].
Qed.

Lemma scan_walk_app (pre post : list (str * list str * list str)) :
  no_zstd_name ul pre →
  scan_walk ul path_join (pre ++ post) = scan_walk ul path_join post.
Proof.
  induction pre as [|[[root dirs] files] pre IH]; intros Hn; simpl; [done|].
  rewrite scan_files_none.
  - apply IH. intros r d fs f Hin. apply (Hn r d fs f). by right.
  - apply Forall_forall. intros f Hf. apply (Hn root dirs files f); [left|done].
Qed.

Lemma extract_zstd_data_scan (af_path : str) (walk : list (str * list str * list str)) :
  ran tmpdir subprocess_run path_str af_path walk →
  extract_zstd_data ul tmpdir subprocess_run read_bytes path_str path_join af_path
  = match scan_walk ul path_join walk with
    | Some fpath => data ← read_bytes fpath; Ok (Some data)
    | None => Ok None
    end.
Proof. intros Hran. unfold extract_zstd_data. by destruct Hran as [-> | [-> ->]]. Qed.

(** X18. Once a command has run, [extract_zstd_data] returns [None]
    when no file below the directory has a name that holds [zstd] in
    any letter case or begins with [4C]; otherwise it reads the first
    such file, directories taken in the order [os.walk] yields them and
    files in the order it lists them, and returns its content. Later
    files are not looked at, and an error of the read is raised, not
    skipped. The exit status of the command plays no part. *)
Theorem zstd_first_file (af_path : str) (walk : list (str * list str * list str)) :
  ran tmpdir subprocess_run path_str af_path walk →
  (no_zstd_name ul walk →
     extract_zstd_data ul tmpdir subprocess_run read_bytes path_str path_join af_path
       = Ok None) ∧
  (∀ pre root dirs fs1 f fs2 post,
     walk = pre ++ (root, dirs, fs1 ++ f :: fs2) :: post →
     no_zstd_name ul pre → Forall (λ g, zstd_name ul g = false) fs1 →
     zstd_name ul f = true →
     extract_zstd_data ul tmpdir subprocess_run read_bytes path_str path_join af_path
       = match read_bytes (path_join root f) with
         | Ok data => Ok (Some data)
         | Raise e => Raise e
         end).
Proof.
  intros Hran. rewrite (extract_zstd_data_scan af_path walk Hran). split.
  - intros Hn. by rewrite scan_walk_none.
  - intros pre root dirs fs1 f fs2 post -> Hpre Hfs Hf.
    rewrite scan_walk_app by done. simpl. rewrite scan_files_first by done.
    by destruct (read_bytes (path_join root f)).
Qed.
End ZstdFacts.

(** The sample machine: binwalk is not found, the nix-shell command
    runs, and the first file that passes is [B.ZSTD]. *)
Lemma zstd_first_file_witness :
  ran (u "/tmp/x") sample_run (λ p, p) (u "doc.af") sample_walk ∧
  extract_zstd_data ascii_only (u "/tmp/x") sample_run sample_read (λ p, p) sample_join
    (u "doc.af") = Ok (Some (text_record 11 (b "Hello World"))).
Proof.
  assert (H : ran (u "/tmp/x") sample_run (λ p, p) (u "doc.af") sample_walk).
  { right. split; reflexivity. }
  split; [exact H|].
  destruct (zstd_first_file ascii_only (u "/tmp/x") sample_run sample_read (λ p, p)
              sample_join (u "doc.af") sample_walk H) as [_ Hfirst].
  rewrite (Hfirst [(u "/tmp/x", [u "sub"], [u "readme.txt"])] (u "/tmp/x/sub") []
             [u "a.bin"] (u "B.ZSTD") [u "4Cfile"] []).
  - reflexivity.
  - reflexivity.
  - intros root dirs files f Hin Hf.
    apply list_elem_of_singleton in Hin. injection Hin as -> -> ->.
    apply list_elem_of_singleton in Hf as ->. reflexivity.
  - by repeat constructor.
  - reflexivity.
Defined.



(** ** What makes [main] fail *)

Lemma bind_raise {A C} (m : result A) (f : A → result C) (e : exn) :
  m ≫= f = Raise e → m = Raise e ∨ ∃ a, m = Ok a ∧ f a = Raise e.
Proof.
  destruct m as [a|e']; simpl; intros H; [right; by exists a|left; congruence].
Qed.

(** When the test for the input file and every [print] succeed, the
    whole of [main] is [main] up to the report followed by the output
    stage. *)
Lemma main_whole_main {json : Type} (json_loads : bytes → result json)
    (ul : str → str) (read_bytes : str → result bytes) (path_exists : str → bool)
    (path_str : str → str) (extract_zstd_data : str → result (option bytes))
    (doc : str) (print : bool → str → result unit)
    (json_dumps : @report json → result str) (write_text : str → str → result unit)
    (argv : list str) :
  (∀ f t, print f t = Ok ()) →
  main_whole json_loads ul read_bytes (λ p, Ok (path_exists p)) path_str
    extract_zstd_data doc print json_dumps write_text argv
  = (ro ← main json_loads ul read_bytes path_exists path_str extract_zstd_data argv;
     output ← json_dumps ro.1;
     match ro.2 with
     | Some path => _ ← write_text path output; print true (u "Written to " ++ path_str path)
     | None => print false output
     end).
Proof.
  intros Hprint. unfold main_whole, main_input, main.
  destruct (len argv <? 2); [by rewrite Hprint|].
  destruct (argv_get argv 1) as [a1|]; [simpl|done]. case_bool_decide.
  - destruct (len argv <? 3); [by rewrite Hprint|].
    destruct (argv_get argv 2) as [a2|]; [simpl|done].
    destruct (read_bytes a2) as [data|]; [simpl|done].
    by destruct (assemble ul (path_str a2) None data).
  - destruct (path_exists a1); simpl; [|by rewrite Hprint].
    destruct (extract_metadata json_loads read_bytes a1) as [meta|]; [simpl|done].
    rewrite !Hprint. simpl.
    destruct (extract_zstd_data a1) as [[[|c data]|]|]; simpl; rewrite ?Hprint; try done.
    by destruct (assemble ul (path_str a1) meta (c :: data)).
Qed.

(** X14. Whatever the stream holds, the extractors do not make [main]
    fail: when the whole of [main] raises, it is the exit with status
    1, or an error raised by the test that the input file exists, by
    reading a file, by the decompression, by [json.dumps], by writing
    the output file, or by [print]. *)
Theorem main_whole_raises_only {json : Type} (json_loads : bytes → result json)
    (ul : str → str) (read_bytes : str → result bytes) (path_exists : str → result bool)
    (path_str : str → str) (extract_zstd_data : str → result (option bytes))
    (doc : str) (print : bool → str → result unit)
    (json_dumps : @report json → result str) (write_text : str → str → result unit)
    (argv : list str) (e : exn) :
  main_whole json_loads ul read_bytes path_exists path_str extract_zstd_data doc print
    json_dumps write_text argv = Raise e →
  e = SystemExit 1 ∨
  (∃ p, path_exists p = Raise e) ∨
  (∃ p, read_bytes p = Raise e) ∨
  (∃ p, extract_zstd_data p = Raise e) ∨
  (∃ r, json_dumps r = Raise e) ∨
  (∃ p t, write_text p t = Raise e) ∨
  (∃ f t, print f t = Raise e).
Proof.
  intros Hrun. unfold main_whole in Hrun.
  apply bind_raise in Hrun as [Hin|([[[data meta] src] out] & Hin & Hrun)].
  - unfold main_input in Hin. destruct (Z.ltb_spec (len argv) 2) as [Hlt|Hge].
    { apply bind_raise in Hin as [Hp|(? & _ & [= <-])]; [eauto 10|auto]. }
    destruct (argv_get_in_range argv 1 ltac:(simpl; lia)) as (a1 & _ & E1).
    rewrite E1 in Hin. simpl in Hin. case_bool_decide.
    + destruct (Z.ltb_spec (len argv) 3).
      { apply bind_raise in Hin as [Hp|(? & _ & [= <-])]; [eauto 10|auto]. }
      destruct (argv_get_in_range argv 2 ltac:(simpl; lia)) as (a2 & _ & E2).
      rewrite E2 in Hin. simpl in Hin.
      apply bind_raise in Hin as [Hr|(? & _ & [=])]. eauto 10.
    + apply bind_raise in Hin as [Hx|(found & _ & Hin)]; [eauto 10|].
      destruct found; simpl in Hin.
      2:{ apply bind_raise in Hin as [Hp|(? & _ & [= <-])]; [eauto 10|auto]. }
      apply bind_raise in Hin as [Hm|(m & _ & Hin)].
      { apply extract_metadata_raise in Hm. eauto 10. }
      apply bind_raise in Hin as [Hp|(? & _ & Hin)]; [eauto 10|].
      apply bind_raise in Hin as [Hz|(d & _ & Hin)]; [eauto 10|].
      destruct d as [[|c d]|]; [| discriminate Hin |];
        (apply bind_raise in Hin as [Hp|(? & _ & [= <-])]; [eauto 10|auto]).
  - apply bind_raise in Hrun as [Ha|(r & _ & Hrun)].
    { destruct (assemble_ok ul src meta data) as (r & Hr & _). congruence. }
    apply bind_raise in Hrun as [Hd|(output & _ & Hrun)]; [eauto 10|].
    destruct out as [path|]; [|eauto 10].
    apply bind_raise in Hrun as [Hw|(? & _ & Hp)]; eauto 10.
Qed.

(** A run with [--from-bin] whose output file cannot be written. *)
Lemma main_whole_raises_only_witness :
  main_whole sample_json_loads ascii_only (λ _, Ok []) (λ _, Ok true) (λ p, p)
    (λ _, Ok None) (u "usage") (λ _ _, Ok ()) (λ _, Ok (u "{}")) (λ _ _, Raise OSError)
    [u "extract_affinity.py"; u "--from-bin"; u "doc.bin"; u "/nowhere/out.json"]
  = Raise OSError ∧
  (OSError = SystemExit 1 ∨
   (∃ p : str, (λ _ : str, Ok true) p = Raise OSError) ∨
   (∃ p : str, (λ _ : str, @Ok bytes []) p = Raise OSError) ∨
   (∃ p : str, (λ _ : str, @Ok (option bytes) None) p = Raise OSError) ∨
   (∃ r : @report bytes, (λ _ : @report bytes, Ok (u "{}")) r = Raise OSError) ∨
   (∃ p t : str, (λ _ _ : str, @Raise unit OSError) p t = Raise OSError) ∨
   (∃ (f : bool) (t : str), (λ (_ : bool) (_ : str), Ok ()) f t = Raise OSError)).
Proof.
  assert (H : main_whole sample_json_loads ascii_only (λ _, Ok []) (λ _, Ok true) (λ p, p)
                (λ _, Ok None) (u "usage") (λ _ _, Ok ()) (λ _, Ok (u "{}"))
                (λ _ _, Raise OSError)
                [u "extract_affinity.py"; u "--from-bin"; u "doc.bin"; u "/nowhere/out.json"]
              = Raise OSError) by reflexivity.
  split; [exact H|].
  exact (main_whole_raises_only sample_json_loads ascii_only (λ _, Ok []) (λ _, Ok true)
           (λ p, p) (λ _, Ok None) (u "usage") (λ _ _, Ok ()) (λ _, Ok (u "{}"))
           (λ _ _, Raise OSError) _ _ H).
Defined.
